(** * KnowledgeScout front end: the session controller of [src/app/page.tsx]

    The page component [Home] keeps five pieces of React state (the document
    list, the question being typed, the chat history, the busy flag and the
    backend status) and talks to the backend through four asynchronous
    functions.  This development embeds

    - the JavaScript values and string operations the component uses,
    - asynchronous functions as trees of effects with [try]/[catch]/[finally],
    - the event loop that runs them to their next [await] and resumes them
      when a response arrives,
    - the component's own functions, transcribed from the source,
    - the controls that the component renders and the runs of the page
      under the user's actions and the backend's answers,

    and then proves the properties of the controller. *)

From Stdlib Require Import String Ascii List ZArith Bool Lia.
Import ListNotations.
Local Open Scope string_scope.
Set Warnings "-register-all".

(* ================================================================== *)
(** * JavaScript strings *)
(* ================================================================== *)

(** A well-formed JavaScript string is represented by the bytes of its UTF-8
    form, so that ASCII literals of the source are the same literals here. *)
Module JsString.

(** [String.prototype.toLowerCase] on the ASCII range.  Outside ASCII the
    Unicode mapping is not modelled: the only characters it sends into ASCII
    are U+212A (to [k]) and U+0130 (to [i] followed by U+0307), and none of
    the suffixes the component tests contains [k] or [i], so every
    [endsWith] test of the source has the value computed here. *)
Definition lower_char (c : ascii) : ascii :=
  let n := nat_of_ascii c in
  if ((65 <=? n) && (n <=? 90))%nat then ascii_of_nat (n + 32) else c.

Fixpoint toLowerCase (s : string) : string :=
  match s with
  | EmptyString => EmptyString
  | String c s' => String (lower_char c) (toLowerCase s')
  end.

(** [String.prototype.endsWith(searchString)]: with [start] the length of
    the string minus the length of [searchString], the result is [false]
    when [start] is negative and otherwise tells whether the substring from
    [start] to the end is [searchString]. *)
Definition endsWith (s searchString : string) : bool :=
  let len := String.length s in
  let searchLength := String.length searchString in
  (searchLength <=? len)%nat
  && String.eqb (substring (len - searchLength) searchLength s) searchString.

(** The WhiteSpace and LineTerminator code points of ECMAScript, by the
    length of their UTF-8 form: TAB, LF, VT, FF, CR, SP; U+00A0; and
    U+1680, U+2000 to U+200A, U+2028, U+2029, U+202F, U+205F, U+3000,
    U+FEFF. *)
Definition is_ws1 (c : ascii) : bool :=
  let n := nat_of_ascii c in
  (((9 <=? n) && (n <=? 13)) || (n =? 32))%nat.

Definition is_ws2 (c1 c2 : ascii) : bool :=
  ((nat_of_ascii c1 =? 194) && (nat_of_ascii c2 =? 160))%nat.

Definition is_ws3 (c1 c2 c3 : ascii) : bool :=
  let a := nat_of_ascii c1 in
  let b := nat_of_ascii c2 in
  let c := nat_of_ascii c3 in
  (((a =? 225) && (b =? 154) && (c =? 128))
   || ((a =? 226) && (b =? 128)
       && (((128 <=? c) && (c <=? 138)) || (c =? 168) || (c =? 169) || (c =? 175)))
   || ((a =? 226) && (b =? 129) && (c =? 159))
   || ((a =? 227) && (b =? 128) && (c =? 128))
   || ((a =? 239) && (b =? 187) && (c =? 191)))%nat.

(** Removes the white space at the front of [s].  With [backwards] the
    string is read from its end, so the bytes of a character come in the
    opposite order. *)
Fixpoint strip (backwards : bool) (s : string) : string :=
  match s with
  | EmptyString => s
  | String c1 s1 =>
      if is_ws1 c1 then strip backwards s1
      else
        match s1 with
        | EmptyString => s
        | String c2 s2 =>
            if (if backwards then is_ws2 c2 c1 else is_ws2 c1 c2)
            then strip backwards s2
            else
              match s2 with
              | EmptyString => s
              | String c3 s3 =>
                  if (if backwards then is_ws3 c3 c2 c1 else is_ws3 c1 c2 c3)
                  then strip backwards s3
                  else s
              end
        end
  end.

Definition reverse (s : string) : string :=
  string_of_list_ascii (rev (list_ascii_of_string s)).

Definition trimStart (s : string) : string := strip false s.

Definition trimEnd (s : string) : string := reverse (strip true (reverse s)).

(** [String.prototype.trim] *)
Definition trim (s : string) : string := trimEnd (trimStart s).

(** A string is truthy when it is not empty. *)
Definition nonempty (s : string) : bool :=
  match s with
  | EmptyString => false
  | String _ _ => true
  end.

End JsString.

(* ================================================================== *)
(** * JavaScript values *)
(* ================================================================== *)

Module Js.

(** The values [response.json()] can produce, and [undefined], which reading
    a missing property produces.  The component never computes with numbers;
    it only tests them for truthiness, so a number carries an integer. *)
Inductive jsval : Type :=
| JUndefined
| JNull
| JBool (b : bool)
| JNum (n : Z)
| JStr (s : string)
| JArr (items : list jsval)
| JObj (fields : list (string * jsval)).

(** A thrown [Error] object: its [name] and its [message]. *)
Record error : Type := Error { name : string; message : string }.

(** The outcome of an expression that may throw, and of a promise that has
    settled: [Rejected] is a throw or a rejection. *)
Inductive settled (A : Type) : Type :=
| Fulfilled (a : A)
| Rejected (e : error).
Arguments Fulfilled {A} a.
Arguments Rejected {A} e.

(** ToBoolean *)
Definition truthy (v : jsval) : bool :=
  match v with
  | JUndefined | JNull => false
  | JBool b => b
  | JNum n => negb (n =? 0)%Z
  | JStr s => JsString.nonempty s
  | JArr _ | JObj _ => true
  end.

(** [a || b] *)
Definition logical_or (a b : jsval) : jsval := if truthy a then a else b.

(** The own property [key] of an object parsed from JSON. *)
Fixpoint lookup (key : string) (fields : list (string * jsval)) : option jsval :=
  match fields with
  | [] => None
  | (k, v) :: rest => if String.eqb k key then Some v else lookup key rest
  end.

(** [v.key] for the keys the component reads ([filename], [file_type],
    [documents], [answer], [sources]), none of which is a property of a
    built-in prototype: reading from [null] or [undefined] throws a
    [TypeError], an object gives its own property, and anything else, like a
    missing property, gives [undefined]. *)
Definition get (v : jsval) (key : string) : settled jsval :=
  match v with
  | JUndefined | JNull =>
      Rejected (Error "TypeError"
                  ("Cannot read properties of null (reading '" ++ key ++ "')"))
  | JObj fields =>
      match lookup key fields with
      | Some x => Fulfilled x
      | None => Fulfilled JUndefined
      end
  | _ => Fulfilled JUndefined
  end.

(** Whether ToString of a value returns, for a value parsed from JSON,
    which holds no function and no symbol.  A primitive has a text.  An
    array is joined by [Array.prototype.join], which converts its elements
    in turn, [null] to the empty text.  An object answers through
    [Object.prototype.toString] unless it has a property [toString] of its
    own, which parsed from JSON is never a function; then [valueOf] is
    tried, and neither a property of its own nor [Object.prototype.valueOf],
    which gives the object back, yields a primitive: a [TypeError]. *)
Fixpoint convertible (v : jsval) : bool :=
  match v with
  | JArr items =>
      (fix all (l : list jsval) : bool :=
         match l with
         | [] => true
         | x :: l' => convertible x && all l'
         end) items
  | JObj fields =>
      match lookup "toString" fields with
      | Some _ => false
      | None => true
      end
  | _ => true
  end.

End Js.

(* ================================================================== *)
(** * The component's data and the backend it talks to *)
(* ================================================================== *)

Import Js.

(** [interface ChatMessage].  The fields [answer] and [sources] hold what
    the response carried, whatever its shape. *)
Module ChatMessage.
Record t : Type := Build { question : string; answer : jsval; sources : jsval }.
End ChatMessage.

(** The type of the [apiStatus] state. *)
Inductive ApiStatus : Type := checking | online | offline.

(** The component [Home]: one field per [useState], and the error with
    which React gave up rendering it, if it did.  [documents] holds
    whatever [setDocuments] was given: its type [Document[]] is not checked
    when the page runs.  The five fields of the state are what the calls of
    the setters so far ask for.  That is what the page shows as long as
    [renderError] is [None]; once a render has failed the component is
    unmounted, as nothing in the application catches the error, and what
    the setters were or are asked for is never shown. *)
Record State : Type := {
  documents : jsval;
  question : string;
  chatHistory : list ChatMessage.t;
  loading : bool;
  apiStatus : ApiStatus;
  renderError : option error
}.

(** The state of a freshly mounted component. *)
Definition initial : State :=
  {| documents := JArr [];
     question := "";
     chatHistory := [];
     loading := false;
     apiStatus := checking;
     renderError := None |}.

(** A [File] of a file input: its name and its content. *)
Record File : Type := { file_name : string; file_content : string }.

(** The change event of a file input: [event.target.files] is a list of
    files, or [null]. *)
Record ChangeEvent : Type := { target_files : option (list File) }.

(** The body of a request. *)
Inductive Body : Type :=
| NoBody
| FormData (entries : list (string * File))
| JsonText (v : jsval).

(** The arguments of a call of [fetch]. *)
Record Request : Type := {
  url : string;
  method : string;
  headers : list (string * string);
  body : Body
}.

(** A response: its status, and what [response.json()] settles to once the
    body has arrived, which is a rejection when the body is not JSON. *)
Record Response : Type := { status : Z; json : settled jsval }.

(** [response.ok]: the status is in the range 200 to 299. *)
Definition ok (response : Response) : bool :=
  ((200 <=? status response) && (status response <=? 299))%Z.

(** The calls of the state setters.  [setChatHistory] is called with an
    updater function, whose body React evaluates when it applies the
    update, outside the caller's [try]. *)
Inductive setter : Type :=
| setDocuments (v : jsval)
| setQuestion (q : string)
| setChatHistory (updater : list ChatMessage.t -> settled (list ChatMessage.t))
| setLoading (b : bool)
| setApiStatus (a : ApiStatus).

(** What a setter does to the state; a rejection is an updater that threw. *)
Definition apply_setter (st : setter) (s : State) : settled State :=
  match st with
  | setDocuments v =>
      Fulfilled {| documents := v; question := question s;
                   chatHistory := chatHistory s; loading := loading s;
                   apiStatus := apiStatus s; renderError := renderError s |}
  | setQuestion q =>
      Fulfilled {| documents := documents s; question := q;
                   chatHistory := chatHistory s; loading := loading s;
                   apiStatus := apiStatus s; renderError := renderError s |}
  | setChatHistory updater =>
      match updater (chatHistory s) with
      | Fulfilled h =>
          Fulfilled {| documents := documents s; question := question s;
                       chatHistory := h; loading := loading s;
                       apiStatus := apiStatus s; renderError := renderError s |}
      | Rejected e => Rejected e
      end
  | setLoading b =>
      Fulfilled {| documents := documents s; question := question s;
                   chatHistory := chatHistory s; loading := b;
                   apiStatus := apiStatus s; renderError := renderError s |}
  | setApiStatus a =>
      Fulfilled {| documents := documents s; question := question s;
                   chatHistory := chatHistory s; loading := loading s;
                   apiStatus := a; renderError := renderError s |}
  end.

(** The render that follows an updater throwing [e] fails with [e], unless
    an earlier render has failed already. *)
Definition fail_render (e : error) (s : State) : State :=
  {| documents := documents s; question := question s;
     chatHistory := chatHistory s; loading := loading s;
     apiStatus := apiStatus s;
     renderError := match renderError s with
                    | Some e0 => Some e0
                    | None => Some e
                    end |}.

(** A piece of the text given to [alert]: a literal, the text of a value,
    or the text of an error, which [+] gets from [Error.prototype.toString]. *)
Inductive piece : Type :=
| Text (s : string)
| Value (v : jsval)
| Thrown (e : error).

(** ToString, which a template literal applies to the value of each of its
    expressions as soon as it has evaluated it: the text of [v], kept as
    the value it is the text of, or the [TypeError] of a value that has
    none. *)
Definition ToString (v : jsval) : settled piece :=
  if convertible v
  then Fulfilled (Value v)
  else Rejected (Error "TypeError" "Cannot convert object to primitive value").

(** The synchronous effects of the component. *)
Inductive effect : Type :=
| Update (st : setter)
| WindowAlert (text : list piece)
| ConsoleError (label : string) (e : error).

(* ================================================================== *)
(** * Asynchronous functions *)
(* ================================================================== *)

(** The body of an [async] function, up to its result [A]: it returns,
    throws, performs an effect and goes on, awaits a [fetch] or the body of
    a response and goes on with what the promise settled to, or calls
    another asynchronous function without awaiting it. *)
Inductive proc (A : Type) : Type :=
| Ret (a : A)
| Throw (e : error)
| Do (eff : effect) (k : proc A)
| Fetch (rq : Request) (k : settled Response -> proc A)
| ReadJson (response : Response) (k : settled jsval -> proc A)
| Spawn (callee : proc unit) (k : proc A).
Arguments Ret {A} a.
Arguments Throw {A} e.
Arguments Do {A} eff k.
Arguments Fetch {A} rq k.
Arguments ReadJson {A} response k.
Arguments Spawn {A} callee k.

Fixpoint bind {A B : Type} (p : proc A) (f : A -> proc B) : proc B :=
  match p with
  | Ret a => f a
  | Throw e => Throw e
  | Do eff k => Do eff (bind k f)
  | Fetch rq k => Fetch rq (fun o => bind (k o) f)
  | ReadJson response k => ReadJson response (fun o => bind (k o) f)
  | Spawn callee k => Spawn callee (bind k f)
  end.

Declare Scope proc_scope.
Delimit Scope proc_scope with proc.
Bind Scope proc_scope with proc.
Notation "x <- p ;; k" := (bind p (fun x => k))
  (at level 61, p at next level, right associativity) : proc_scope.
Notation "p ;; k" := (bind p (fun _ => k))
  (at level 61, right associativity) : proc_scope.
Local Open Scope proc_scope.

(** [try { body } catch (error) { handler error }] *)
Fixpoint try_catch {A : Type} (body : proc A) (handler : error -> proc A) : proc A :=
  match body with
  | Ret a => Ret a
  | Throw e => handler e
  | Do eff k => Do eff (try_catch k handler)
  | Fetch rq k => Fetch rq (fun o => try_catch (k o) handler)
  | ReadJson response k => ReadJson response (fun o => try_catch (k o) handler)
  | Spawn callee k => Spawn callee (try_catch k handler)
  end.

(** [try { body } finally { cleanup }]: the cleanup runs on every way out of
    the body, and the body's return or throw stands unless the cleanup
    throws. *)
Fixpoint finally {A : Type} (body : proc A) (cleanup : proc unit) : proc A :=
  match body with
  | Ret a => cleanup ;; Ret a
  | Throw e => cleanup ;; Throw e
  | Do eff k => Do eff (finally k cleanup)
  | Fetch rq k => Fetch rq (fun o => finally (k o) cleanup)
  | ReadJson response k => ReadJson response (fun o => finally (k o) cleanup)
  | Spawn callee k => Spawn callee (finally k cleanup)
  end.

(** A settled promise or a finished expression, awaited or evaluated. *)
Definition lift {A : Type} (r : settled A) : proc A :=
  match r with
  | Fulfilled a => Ret a
  | Rejected e => Throw e
  end.

(** [await fetch(rq)] *)
Definition fetch (rq : Request) : proc Response := Fetch rq lift.

(** [await response.json()] *)
Definition response_json (response : Response) : proc jsval := ReadJson response lift.

Definition set (st : setter) : proc unit := Do (Update st) (Ret tt).
Definition alert (text : list piece) : proc unit := Do (WindowAlert text) (Ret tt).
Definition console_error (label : string) (e : error) : proc unit :=
  Do (ConsoleError label e) (Ret tt).

(* ================================================================== *)
(** * The event loop *)
(* ================================================================== *)

(** What the functions of the component do, in the order it happens: the
    effects they perform, a call of a setter among them, the requests they
    make, and the rejection of a function nobody awaits. *)
Inductive event : Type :=
| Performed (eff : effect)
| Requested (rq : Request)
| UnhandledRejection (e : error).

(** A function suspended at an [await]: what it waits for, the answer to a
    request or the body of a response, and what it does with the settled
    promise. *)
Inductive task : Type :=
| AwaitingFetch (rq : Request) (k : settled Response -> proc unit)
| AwaitingJson (response : Response) (k : settled jsval -> proc unit).

(** The page at rest: the component's state, what happened so far, and the
    suspended functions. *)
Record Config : Type := {
  state : State;
  log : list event;
  waiting : list task
}.

Definition record (evs : list event) (c : Config) : Config :=
  {| state := state c; log := log c ++ evs; waiting := waiting c |}.

(** An effect takes place.  The call of a setter only queues the update:
    React applies the updates of a function when it renders, after the
    function has suspended or returned, and so outside every [try] of the
    function.  The function runs to its next [await] in one piece, so the
    state between two of its steps is seen by nobody, and the update is
    applied here, at the call.  An updater that throws makes that render
    fail: the call is logged like any other, the later calls of the
    function are queued like any other, and [renderError] says that none
    of them reaches the page, which is gone. *)
Definition perform (eff : effect) (c : Config) : Config :=
  match eff with
  | Update st =>
      match apply_setter st (state c) with
      | Fulfilled s' =>
          {| state := s'; log := log c ++ [Performed eff]; waiting := waiting c |}
      | Rejected e =>
          {| state := fail_render e (state c);
             log := log c ++ [Performed eff];
             waiting := waiting c |}
      end
  | _ => record [Performed eff] c
  end.

(** Runs a function until it finishes or suspends.  A function called
    without [await] runs up to its own first [await] before its caller goes
    on; a rejection nobody awaits is only reported. *)
Fixpoint advance (p : proc unit) (c : Config) {struct p} : Config :=
  match p with
  | Ret _ => c
  | Throw e => record [UnhandledRejection e] c
  | Do eff k => advance k (perform eff c)
  | Fetch rq k =>
      {| state := state c;
         log := log c ++ [Requested rq];
         waiting := waiting c ++ [AwaitingFetch rq k] |}
  | ReadJson response k =>
      {| state := state c;
         log := log c;
         waiting := waiting c ++ [AwaitingJson response k] |}
  | Spawn callee k => advance k (advance callee c)
  end.

(** The page without its [i]-th suspended function. *)
Definition without (i : nat) (c : Config) : Config :=
  {| state := state c;
     log := log c;
     waiting := firstn i (waiting c) ++ skipn (S i) (waiting c) |}.

(** The [i]-th suspended function, which waits for the answer to a request,
    is resumed with the outcome [o] of the request. *)
Definition deliver (i : nat) (o : settled Response) (c : Config) : Config :=
  match nth_error (waiting c) i with
  | Some (AwaitingFetch _ k) => advance (k o) (without i c)
  | _ => c
  end.

(** The [i]-th suspended function, which waits for the body of a response,
    is resumed with what the body is. *)
Definition body_arrives (i : nat) (c : Config) : Config :=
  match nth_error (waiting c) i with
  | Some (AwaitingJson response k) => advance (k (json response)) (without i c)
  | _ => c
  end.

(** An event handler or an effect hook calls [p] on a page in state [s]
    with nothing in flight. *)
Definition call (p : proc unit) (s : State) : Config :=
  advance p {| state := s; log := []; waiting := [] |}.

(** The requests of a log, and how many of them go to [u]. *)
Definition requested_url (ev : event) : option string :=
  match ev with
  | Requested rq => Some (url rq)
  | _ => None
  end.

Definition requests_to (u : string) (l : list event) : nat :=
  List.length
    (filter (fun ev => match requested_url ev with
                       | Some u' => String.eqb u' u
                       | None => false
                       end) l).

Definition is_request (ev : event) : bool :=
  match ev with
  | Requested _ => true
  | _ => false
  end.

Definition is_setLoading (ev : event) : bool :=
  match ev with
  | Performed (Update (setLoading _)) => true
  | _ => false
  end.

Definition is_alert (ev : event) : bool :=
  match ev with
  | Performed (WindowAlert _) => true
  | _ => false
  end.

(* ================================================================== *)
(** * The component [Home] *)
(* ================================================================== *)

Module Home.

(** [fetch(url)] with no options is a GET without a body. *)
Definition GET (u : string) : Request :=
  {| url := u; method := "GET"; headers := []; body := NoBody |}.

Definition checkApiStatus : proc unit :=
  try_catch
    (response <- fetch (GET "https://knowledgescout-backend.onrender.com/") ;;
     if ok response
     then set (setApiStatus online)
     else set (setApiStatus offline))
    (fun error => set (setApiStatus offline)).

Definition fetchDocuments : proc unit :=
  try_catch
    (response <- fetch (GET "https://knowledgescout-backend.onrender.com/documents/") ;;
     data <- response_json response ;;
     data_documents <- lift (get data "documents") ;;
     set (setDocuments (logical_or data_documents (JArr []))))
    (fun error => console_error "Failed to fetch documents:" error).

(** [event.target.files?.[0]] *)
Definition first_file (event : ChangeEvent) : option File :=
  match target_files event with
  | Some (file :: _) => Some file
  | _ => None
  end.

Definition allowedTypes : list string := [".txt"; ".pdf"; ".doc"; ".docx"].

Definition handleFileUpload (event : ChangeEvent) : proc unit :=
  match first_file event with
  | None => Ret tt
  | Some file =>
      let fileName := JsString.toLowerCase (file_name file) in
      let isValidType :=
        existsb (fun type => JsString.endsWith fileName type) allowedTypes in
      if negb isValidType
      then alert [Text "Please upload .txt, .pdf, .doc, or .docx files only"]
      else
        let formData := [("file", file)] in
        finally
          (try_catch
             (set (setLoading true) ;;
              response <- fetch
                {| url := "https://knowledgescout-backend.onrender.com/upload/";
                   method := "POST";
                   headers := [];
                   body := FormData formData |} ;;
              if ok response
              then
                result <- response_json response ;;
                result_filename <- lift (get result "filename") ;;
                filename <- lift (ToString result_filename) ;;
                result_file_type <- lift (get result "file_type") ;;
                file_type <- lift (ToString result_file_type) ;;
                alert [Text "✅ "; filename;
                       Text " uploaded successfully! ("; file_type; Text ")"] ;;
                Spawn fetchDocuments (Ret tt)
              else alert [Text "Upload failed. Please try again."])
             (fun error => alert [Text "Upload failed: "; Thrown error]))
          (set (setLoading false))
  end.

Section Render.

(** The state of the render whose closure [askQuestion] is. *)
Variable render : State.

Definition askQuestion : proc unit :=
  let question := question render in
  if negb (JsString.nonempty (JsString.trim question))
  then Ret tt
  else
    set (setLoading true) ;;
    finally
      (try_catch
         (response <- fetch
            {| url := "https://knowledgescout-backend.onrender.com/ask/";
               method := "POST";
               headers := [("Content-Type", "application/json")];
               body := JsonText (JObj [("question", JStr question)]) |} ;;
          (if negb (ok response)
           then Throw (Error "Error" "Backend not responding")
           else Ret tt) ;;
          data <- response_json response ;;
          set (setChatHistory (fun prev =>
                 match get data "answer", get data "sources" with
                 | Fulfilled data_answer, Fulfilled data_sources =>
                     Fulfilled
                       (prev ++
                        [ {| ChatMessage.question := question;
                             ChatMessage.answer := data_answer;
                             ChatMessage.sources :=
                               logical_or data_sources (JArr []) |} ])%list
                 | Rejected e, _ => Rejected e
                 | _, Rejected e => Rejected e
                 end)) ;;
          set (setQuestion ""))
         (fun error =>
            alert [Text "❌ Failed to get answer. Please check if backend is running."]))
      (set (setLoading false)).

End Render.

(** The effect hook that runs once after the first render. *)
Definition mount : proc unit :=
  Spawn checkApiStatus (Spawn fetchDocuments (Ret tt)).

Definition getFileIcon (filename : string) : string :=
  if JsString.endsWith (JsString.toLowerCase filename) ".pdf" then "📄"
  else if JsString.endsWith (JsString.toLowerCase filename) ".doc"
          || JsString.endsWith (JsString.toLowerCase filename) ".docx" then "📋"
  else "📝".

Definition getFileType (filename : string) : string :=
  if JsString.endsWith (JsString.toLowerCase filename) ".pdf" then "PDF"
  else if JsString.endsWith (JsString.toLowerCase filename) ".doc" then "DOC"
  else if JsString.endsWith (JsString.toLowerCase filename) ".docx" then "DOCX"
  else "TXT".

End Home.

(* ================================================================== *)
(** * Vocabulary of the properties *)
(* ================================================================== *)

(** [filename] ends in [ext], whatever the case of its letters. *)
Definition has_extension (filename ext : string) : Prop :=
  exists stem tail, filename = stem ++ tail /\ JsString.toLowerCase tail = ext.

(** A request failed: the transport gave up, or the status is not 2xx. *)
Definition request_failed (o : settled Response) : bool :=
  match o with
  | Fulfilled response => negb (ok response)
  | Rejected _ => true
  end.

(** The number of times a log asks the backend for the document list. *)
Definition refreshes (l : list event) : nat :=
  requests_to "https://knowledgescout-backend.onrender.com/documents/" l.

(** The change event of a file input in which [file] was picked. *)
Definition picked (file : File) : ChangeEvent :=
  {| target_files := Some [file] |}.

(** The page in state [s] with an empty log and nothing in flight. *)
Definition at_rest (s : State) : Config :=
  {| state := s; log := []; waiting := [] |}.

Definition is_console_error (ev : event) : bool :=
  match ev with
  | Performed (ConsoleError _ _) => true
  | _ => false
  end.

(** The only suspended function of [c] gets the outcome [o] of its request
    and then, if it goes on to read the body of the response, the body. *)
Definition answered (o : settled Response) (c : Config) : Config :=
  body_arrives 0 (deliver 0 o c).

(** The busy flag around a request whose outcome is [o]: [c0] is the page
    when the function has made its request.  Raising the flag is the first
    thing that happens and the request follows; the flag is up while the
    function waits for the answer and, if it reads the body, while it waits
    for the body; no call of [setLoading] comes between the one that raises
    the flag and the one that lowers it; and lowering it is the last thing
    that happens. *)
Definition busy_around_request (c0 : Config) (o : settled Response) : Prop :=
  let c' := deliver 0 o c0 in
  let c1 := body_arrives 0 c' in
  (exists rq k,
     log c0 = [Performed (Update (setLoading true)); Requested rq] /\
     waiting c0 = [AwaitingFetch rq k]) /\
  loading (state c0) = true /\
  (waiting c' = [] \/
   (exists response k, waiting c' = [AwaitingJson response k]) /\
   loading (state c') = true) /\
  filter is_setLoading (log c1) =
    [Performed (Update (setLoading true)); Performed (Update (setLoading false))] /\
  last (log c1) (Performed (Update (setLoading true))) =
    Performed (Update (setLoading false)) /\
  loading (state c1) = false.

(** ** Sample data *)

Definition notes_txt : File :=
  {| file_name := "notes.txt"; file_content := "hello" |}.

Definition photo_png : File :=
  {| file_name := "photo.PNG"; file_content := "" |}.

(** The upload answered by a 2xx response and by a non-2xx response. *)
Definition upload_created : Response :=
  {| status := 200;
     json := Fulfilled (JObj [("filename", JStr "notes.txt");
                              ("file_type", JStr "txt")]) |}.

(** A 2xx answer to the upload whose [filename] is an object with a
    property [toString] of its own. *)
Definition upload_without_text : Response :=
  {| status := 200;
     json := Fulfilled (JObj [("filename", JObj [("toString", JNum 0)]);
                              ("file_type", JStr "txt")]) |}.

Definition empty_200 : Response :=
  {| status := 200;
     json := Rejected (Error "SyntaxError" "Unexpected end of JSON input") |}.

Definition server_error : Response :=
  {| status := 500;
     json := Fulfilled (JObj [("detail", JStr "Internal Server Error")]) |}.

Definition one_document : jsval :=
  JArr [JObj [("id", JStr "1"); ("filename", JStr "a.txt"); ("content", JStr "hello")]].

Definition listing : Response :=
  {| status := 200; json := Fulfilled (JObj [("documents", one_document)]) |}.

(** A page that lists one document. *)
Definition listing_page : State :=
  {| documents := one_document; question := ""; chatHistory := [];
     loading := false; apiStatus := online; renderError := None |}.

(** A page on which a question was typed, and one on which only blanks
    were. *)
Definition asking_page : State :=
  {| documents := one_document; question := "What is X?"; chatHistory := [];
     loading := false; apiStatus := online; renderError := None |}.

Definition blank_page : State :=
  {| documents := one_document; question := "   "; chatHistory := [];
     loading := false; apiStatus := online; renderError := None |}.

Definition answer_with_source : Response :=
  {| status := 200;
     json := Fulfilled (JObj [("answer", JStr "X is Y");
                              ("sources", JArr [JObj [("filename", JStr "a.txt")]])]) |}.

Definition ask_failed_alert : event :=
  Performed
    (WindowAlert [Text "❌ Failed to get answer. Please check if backend is running."]).

Definition invalid_type_alert : event :=
  Performed (WindowAlert [Text "Please upload .txt, .pdf, .doc, or .docx files only"]).

(* ================================================================== *)
(** * The controls of the page and its runs *)
(* ================================================================== *)

Module Controls.
Import JsString Home.

(** What the user can do with the controls that [Home] renders: change the
    text of the question input, press a key in it, click the Ask button,
    and change the selection of the file input. *)
Inductive action : Type :=
| TypeQuestion (value : string)
| KeyPress (key : string)
| ClickAsk
| PickFile (event : ChangeEvent).

Section Render.

(** The state of the render that the controls belong to. *)
Variable render : State.

(** Whether the control an action goes to does not react.  A render that
    failed has left no control on the page.  Otherwise it is the
    [disabled] attribute of the control: [disabled={loading}] on the two
    inputs and [disabled={loading || !question.trim()}] on the button. *)
Definition disabled (a : action) : bool :=
  match renderError render with
  | Some _ => true
  | None =>
      match a with
      | TypeQuestion _ => loading render
      | KeyPress _ => loading render
      | ClickAsk => loading render || negb (nonempty (trim (question render)))
      | PickFile _ => loading render
      end
  end.

(** The handlers of the controls: [onChange] and [onKeyPress] of the
    question input, [onClick] of the button, [onChange] of the file
    input. *)
Definition handler (a : action) : proc unit :=
  match a with
  | TypeQuestion value => set (setQuestion value)
  | KeyPress key =>
      if String.eqb key "Enter" && negb (loading render)
      then askQuestion render
      else Ret tt
  | ClickAsk => askQuestion render
  | PickFile event => handleFileUpload event
  end.

End Render.

(** What can happen to the page: the user acts on a control, the answer to
    the request of a suspended function comes, or the body that a suspended
    function reads has arrived. *)
Inductive move : Type :=
| User (a : action)
| Network (i : nat) (o : settled Response)
| BodyRead (i : nat).

(** One move.  A control that is disabled, or gone with the page after a
    render that failed, does not react; the functions that are suspended
    go on all the same when their answers come.  React renders the page
    again before the user can act a second time, so a handler is the
    closure of the current state; what a function updates after an [await]
    may be rendered a little later, and until then the controls are those of
    the older render, which are disabled whenever those here are.  What the
    JSX of [Home] does with the values of the state is not embedded: on a
    value of a shape it does not expect a render can fail as well, and the
    runs of the page are then those in which the user does nothing more,
    which are among the runs here. *)
Definition play (m : move) (c : Config) : Config :=
  match m with
  | User a =>
      if disabled (state c) a then c
      else advance (handler (state c) a) c
  | Network i o => deliver i o c
  | BodyRead i => body_arrives i c
  end.

Definition run (ms : list move) (c : Config) : Config :=
  fold_left (fun c m => play m c) ms c.

(** The page after it was mounted and the moves [ms] were made. *)
Definition session (ms : list move) : Config :=
  run ms (call mount initial).

End Controls.

(* ================================================================== *)
(** * What a function may do *)
(* ================================================================== *)

Section Safety.

(** The effects and the requests that are allowed. *)
Variable P : effect -> Prop.
Variable Q : Request -> Prop.

(** On every way through [p], whatever the outcomes of its requests, the
    effects and the requests are allowed, also those of the functions it
    calls without awaiting them, and no function ends by throwing. *)
Fixpoint safe {A : Type} (p : proc A) {struct p} : Prop :=
  match p with
  | Ret _ => True
  | Throw _ => False
  | Do eff k => P eff /\ safe k
  | Fetch rq k => Q rq /\ forall o, safe (k o)
  | ReadJson _ k => forall o, safe (k o)
  | Spawn callee k => safe callee /\ safe k
  end.

Definition task_safe (t : task) : Prop :=
  match t with
  | AwaitingFetch rq k => Q rq /\ forall o, safe (k o)
  | AwaitingJson _ k => forall o, safe (k o)
  end.

Definition event_safe (ev : event) : Prop :=
  match ev with
  | Performed eff => P eff
  | Requested rq => Q rq
  | UnhandledRejection _ => False
  end.

(** The suspended functions and the log of a page are within what is
    allowed. *)
Definition config_safe (c : Config) : Prop :=
  Forall task_safe (waiting c) /\ Forall event_safe (log c).

End Safety.

(** ** The contract of the component *)

Definition root_url : string := "https://knowledgescout-backend.onrender.com/".
Definition documents_url : string :=
  "https://knowledgescout-backend.onrender.com/documents/".
Definition upload_url : string :=
  "https://knowledgescout-backend.onrender.com/upload/".
Definition ask_url : string := "https://knowledgescout-backend.onrender.com/ask/".

(** A turn of the chat as [askQuestion] makes it. *)
Definition turn_ok (t : ChatMessage.t) : Prop :=
  JsString.trim (ChatMessage.question t) <> "" /\
  truthy (ChatMessage.sources t) = true.

(** The four requests the component makes: the probe, the listing, the
    upload of one file with an allowed extension, and a question that is
    not blank. *)
Definition component_request (rq : Request) : Prop :=
  rq = Home.GET root_url \/
  rq = Home.GET documents_url \/
  (exists file,
     rq = {| url := upload_url; method := "POST"; headers := [];
             body := FormData [("file", file)] |} /\
     existsb (JsString.endsWith (JsString.toLowerCase (file_name file)))
       Home.allowedTypes = true) \/
  (exists q,
     rq = {| url := ask_url; method := "POST";
             headers := [("Content-Type", "application/json")];
             body := JsonText (JObj [("question", JStr q)]) |} /\
     JsString.trim q <> "").

(** The effects the component has: the list of documents is only set to a
    truthy value and the chat history only gets one turn more at its
    end. *)
Definition component_effect (eff : effect) : Prop :=
  match eff with
  | Update (setDocuments v) => truthy v = true
  | Update (setChatHistory updater) =>
      forall h h', updater h = Fulfilled h' ->
                   exists t, h' = (h ++ [t])%list /\ turn_ok t
  | _ => True
  end.

Definition is_unhandled_rejection (ev : event) : bool :=
  match ev with
  | UnhandledRejection _ => true
  | _ => false
  end.

(** ** The busy flag *)

Definition is_busy_url (u : string) : bool :=
  String.eqb u upload_url || String.eqb u ask_url.

(** A function that leaves the busy flag alone and makes no request for an
    upload or a question. *)
Definition quiet {A : Type} (p : proc A) : Prop :=
  safe (fun eff => is_setLoading (Performed eff) = false)
       (fun rq => is_busy_url (url rq) = false) p.

Definition task_quiet (t : task) : Prop :=
  task_safe (fun eff => is_setLoading (Performed eff) = false)
            (fun rq => is_busy_url (url rq) = false) t.

(** A function that holds the busy flag: on every way through it, it makes
    no request of its own, lowers the flag once without raising it, and is
    quiet from then on, as are the functions it calls without awaiting
    them. *)
Fixpoint lowers {A : Type} (p : proc A) {struct p} : Prop :=
  match p with
  | Ret _ => False
  | Throw _ => False
  | Do (Update (setLoading b)) k => b = false /\ quiet k
  | Do _ k => lowers k
  | Fetch _ _ => False
  | ReadJson _ k => forall o, lowers (k o)
  | Spawn callee k => quiet callee /\ lowers k
  end.

(** A function that raises the busy flag, makes a request and holds the
    flag from then on. *)
Definition raises (p : proc unit) : Prop :=
  match p with
  | Do (Update (setLoading true)) (Fetch rq k) => forall o, lowers (k o)
  | _ => False
  end.

Definition task_busy (t : task) : Prop :=
  match t with
  | AwaitingFetch _ k => forall o, lowers (k o)
  | AwaitingJson _ k => forall o, lowers (k o)
  end.

(** The arguments of the calls of [setLoading] in a log, in order. *)
Definition loading_calls (l : list event) : list bool :=
  flat_map (fun ev => match ev with
                      | Performed (Update (setLoading b)) => [b]
                      | _ => []
                      end) l.

(** The flags are [expected], then its opposite, and so on in turn. *)
Fixpoint alternates (expected : bool) (flags : list bool) : bool :=
  match flags with
  | [] => true
  | b :: flags' => Bool.eqb b expected && alternates (negb expected) flags'
  end.

(** The number of suspended functions that wait for the answer to an
    upload or to a question. *)
Definition busy_in_flight (ts : list task) : nat :=
  List.length
    (filter (fun t => match t with
                      | AwaitingFetch rq _ => is_busy_url (url rq)
                      | AwaitingJson _ _ => false
                      end) ts).

(** The suspended functions [ts] are [ordinary], but for one that is
    [special] when [present] is [true]. *)
Fixpoint one_special (special ordinary : task -> Prop) (present : bool)
  (ts : list task) : Prop :=
  match ts with
  | [] => present = false
  | t :: ts' =>
      (ordinary t /\ one_special special ordinary present ts') \/
      (present = true /\ special t /\ Forall ordinary ts')
  end.

(** What the busy flag says of a page: the calls of [setLoading] so far
    went up and down in turn, the flag is what the last call made it, and
    a function holds the flag exactly when it is up. *)
Definition busy_invariant (c : Config) : Prop :=
  alternates true (loading_calls (log c) ++ [negb (loading (state c))]) = true /\
  one_special task_busy task_quiet (loading (state c)) (waiting c).

(** ** The backend status *)

(** A function that leaves the backend status alone. *)
Definition keeps_status {A : Type} (p : proc A) : Prop :=
  safe (fun eff => match eff with
                   | Update (setApiStatus _) => False
                   | _ => True
                   end)
       (fun _ => True) p.

Definition task_keeps_status (t : task) : Prop :=
  task_safe (fun eff => match eff with
                        | Update (setApiStatus _) => False
                        | _ => True
                        end)
            (fun _ => True) t.

(** The suspended probe: whatever the answer, it leaves nothing suspended
    and the status is no longer [checking]. *)
Definition task_probe (t : task) : Prop :=
  match t with
  | AwaitingFetch _ k =>
      forall o c,
        waiting (advance (k o) c) = waiting c /\
        apiStatus (state (advance (k o) c)) <> checking
  | AwaitingJson _ _ => False
  end.

(** The probe is in flight exactly while the status is [checking]. *)
Definition status_invariant (c : Config) : Prop :=
  exists probing : bool,
    one_special task_probe task_keeps_status probing (waiting c) /\
    (probing = true <-> apiStatus (state c) = checking).

(** ** The rendered list of documents *)

Section Preview.

(** A string as the sequence of its code units, whatever their type;
    [dot] is the code unit of a full stop. *)
Variable code_unit : Type.
Variable dot : code_unit.

(** The preview of a document in the list:
    [doc.content.length > 50 ? doc.content.substring(0, 50) + '...' : doc.content]. *)
Definition content_preview (content : list code_unit) : list code_unit :=
  if (50 <? List.length content)%nat
  then (firstn 50 content ++ [dot; dot; dot])%list
  else content.

End Preview.

(* ================================================================== *)
(** * Facts about strings *)
(* ================================================================== *)

Module JsStringFacts.
Import JsString.

Lemma length_app (s t : string) :
  String.length (s ++ t) = String.length s + String.length t.
Proof.
  induction s as [|c s IH]; simpl; [reflexivity | now rewrite IH].
Qed.

Lemma app_assoc (s t u : string) : (s ++ t) ++ u = s ++ (t ++ u).
Proof.
  induction s as [|c s IH]; simpl; [reflexivity | now rewrite IH].
Qed.

Lemma substring_all (t : string) : substring 0 (String.length t) t = t.
Proof.
  induction t as [|c t IH]; simpl; [reflexivity | now rewrite IH].
Qed.

Lemma substring_app_tail (p t : string) :
  substring (String.length p) (String.length t) (p ++ t) = t.
Proof.
  induction p as [|c p IH]; simpl; [apply substring_all | exact IH].
Qed.

(** A string splits at every position inside it. *)
Lemma split_at (n : nat) : forall s : string,
  n <= String.length s ->
  s = substring 0 n s ++ substring n (String.length s - n) s.
Proof.
  induction n as [|n IH]; intros s Hn.
  - rewrite Nat.sub_0_r, substring_all. destruct s; reflexivity.
  - destruct s as [|c s]; simpl in Hn; [lia|].
    simpl. f_equal. apply IH. lia.
Qed.

Lemma length_substring_prefix (n : nat) : forall s : string,
  n <= String.length s -> String.length (substring 0 n s) = n.
Proof.
  induction n as [|n IH]; intros s Hn.
  - destruct s; reflexivity.
  - destruct s as [|c s]; simpl in Hn; [lia|].
    simpl. f_equal. apply IH. lia.
Qed.

Lemma split_exists (n : nat) (s : string) :
  n <= String.length s ->
  exists a b, s = a ++ b /\ String.length a = n.
Proof.
  intros Hn. exists (substring 0 n s), (substring n (String.length s - n) s).
  split; [apply split_at | apply length_substring_prefix]; exact Hn.
Qed.

(** [endsWith] holds exactly of the strings that are something followed by
    the search string. *)
Lemma endsWith_iff (s t : string) :
  endsWith s t = true <-> exists p, s = p ++ t.
Proof.
  unfold endsWith. split.
  - intros H. apply andb_prop in H. destruct H as [Hle Heq].
    apply Nat.leb_le in Hle. apply String.eqb_eq in Heq.
    exists (substring 0 (String.length s - String.length t) s).
    assert (Hin : String.length s - String.length t <= String.length s) by lia.
    pose proof (split_at _ _ Hin) as Hs.
    replace (String.length s - (String.length s - String.length t))
      with (String.length t) in Hs by lia.
    rewrite Heq in Hs. exact Hs.
  - intros [p ->]. rewrite length_app.
    apply andb_true_intro. split.
    + apply Nat.leb_le. lia.
    + apply String.eqb_eq.
      replace (String.length p + String.length t - String.length t)
        with (String.length p) by lia.
      apply substring_app_tail.
Qed.

(** Tails of the same length of one string are the same. *)
Lemma app_tail_inj (p1 : string) : forall p2 t1 t2 : string,
  String.length t1 = String.length t2 ->
  p1 ++ t1 = p2 ++ t2 -> p1 = p2 /\ t1 = t2.
Proof.
  induction p1 as [|c p1 IH]; intros p2 t1 t2 Hlen Heq.
  - destruct p2 as [|d p2]; simpl in Heq.
    + now split.
    + apply (f_equal String.length) in Heq. simpl in Heq.
      rewrite length_app in Heq. lia.
  - destruct p2 as [|d p2]; simpl in Heq.
    + apply (f_equal String.length) in Heq. simpl in Heq.
      rewrite length_app in Heq. lia.
    + injection Heq as -> Heq. destruct (IH _ _ _ Hlen Heq) as [-> ->].
      now split.
Qed.

(** A tail of a string that is no longer than another tail is a tail of
    that one. *)
Lemma app_tail_within (p : string) : forall q s t : string,
  String.length t <= String.length s ->
  p ++ s = q ++ t -> exists q', s = q' ++ t.
Proof.
  induction p as [|c p IH]; intros q s t Hlen Heq.
  - exists q. exact Heq.
  - destruct q as [|d q]; simpl in Heq.
    + apply (f_equal String.length) in Heq. simpl in Heq.
      rewrite length_app in Heq. lia.
    + injection Heq as _ Heq. exact (IH _ _ _ Hlen Heq).
Qed.

Lemma endsWith_app (p s t : string) :
  String.length t <= String.length s ->
  endsWith (p ++ s) t = endsWith s t.
Proof.
  intros Hlen.
  destruct (endsWith s t) eqn:E.
  - apply endsWith_iff in E. destruct E as [q ->].
    apply endsWith_iff. exists (p ++ q). symmetry. apply app_assoc.
  - destruct (endsWith (p ++ s) t) eqn:E'; [|reflexivity].
    apply endsWith_iff in E'. destruct E' as [q Hq].
    apply app_tail_within in Hq; [|exact Hlen].
    apply endsWith_iff in Hq. congruence.
Qed.

Lemma toLowerCase_app (s t : string) :
  toLowerCase (s ++ t) = toLowerCase s ++ toLowerCase t.
Proof.
  induction s as [|c s IH]; simpl; [reflexivity | now rewrite IH].
Qed.

Lemma toLowerCase_length (s : string) :
  String.length (toLowerCase s) = String.length s.
Proof.
  induction s as [|c s IH]; simpl; [reflexivity | now rewrite IH].
Qed.

Lemma lower_char_idempotent (c : ascii) : lower_char (lower_char c) = lower_char c.
Proof.
  destruct c as [[] [] [] [] [] [] [] []]; reflexivity.
Qed.

Lemma toLowerCase_idempotent (s : string) :
  toLowerCase (toLowerCase s) = toLowerCase s.
Proof.
  induction s as [|c s IH]; simpl; [reflexivity|].
  now rewrite lower_char_idempotent, IH.
Qed.

(** Ending in [ext] whatever the case is what the component tests, provided
    [ext] is in lower case. *)
Lemma has_extension_iff (filename ext : string) :
  has_extension filename ext <->
  endsWith (toLowerCase filename) ext = true /\ toLowerCase ext = ext.
Proof.
  split.
  - intros (stem & tail & -> & <-). split.
    + apply endsWith_iff. exists (toLowerCase stem). apply toLowerCase_app.
    + apply toLowerCase_idempotent.
  - intros [H _]. apply endsWith_iff in H. destruct H as [p Hp].
    assert (Hlen : String.length p <= String.length filename).
    { apply (f_equal String.length) in Hp.
      rewrite toLowerCase_length, length_app in Hp. lia. }
    destruct (split_exists _ _ Hlen) as (stem & tail & Hsplit & Hstem).
    exists stem, tail. split; [exact Hsplit|].
    rewrite Hsplit, toLowerCase_app in Hp.
    apply app_tail_inj in Hp; [tauto|].
    apply (f_equal String.length) in Hp.
    rewrite !length_app, !toLowerCase_length in Hp.
    rewrite toLowerCase_length. lia.
Qed.

Lemma nonempty_true_iff (s : string) : nonempty s = true <-> s <> "".
Proof.
  destruct s; simpl; split; congruence.
Qed.

End JsStringFacts.

Import JsString JsStringFacts Home.
Local Open Scope list_scope.

(* ================================================================== *)
(** * The display helpers *)
(* ================================================================== *)

Section DisplayHelpers.

Lemma doc_excludes_pdf (s : string) :
  endsWith s ".doc" = true -> endsWith s ".pdf" = false.
Proof.
  intros H. destruct (endsWith s ".pdf") eqn:E; [|reflexivity].
  apply endsWith_iff in H, E. destruct H as [p ->]. destruct E as [q E].
  apply app_tail_inj in E; [|reflexivity]. destruct E as [_ E]. discriminate E.
Qed.

Lemma docx_excludes_pdf_and_doc (s : string) :
  endsWith s ".docx" = true ->
  endsWith s ".pdf" = false /\ endsWith s ".doc" = false.
Proof.
  intros H. apply endsWith_iff in H. destruct H as [p ->].
  change ".docx" with ("." ++ "docx")%string. rewrite <- app_assoc.
  split.
  - destruct (endsWith _ ".pdf") eqn:E; [|reflexivity].
    apply endsWith_iff in E. destruct E as [q E].
    apply app_tail_inj in E; [|reflexivity]. destruct E as [_ E]. discriminate E.
  - destruct (endsWith _ ".doc") eqn:E; [|reflexivity].
    apply endsWith_iff in E. destruct E as [q E].
    apply app_tail_inj in E; [|reflexivity]. destruct E as [_ E]. discriminate E.
Qed.

(** C7.  [getFileType] is a total function that looks only at the end of
    the file name and not at the case of its letters: a name ending in
    [.pdf] gives [PDF], in [.doc] gives [DOC], in [.docx] gives [DOCX], and
    any other name gives [TXT]; lowering the case of the name, or putting
    anything in front of a name of five characters or more, changes
    nothing; [report.PDF] gives [PDF] and [notes] gives [TXT]. *)
Theorem getFileType_by_extension (filename : string) :
  (has_extension filename ".pdf" -> getFileType filename = "PDF") /\
  (has_extension filename ".doc" -> getFileType filename = "DOC") /\
  (has_extension filename ".docx" -> getFileType filename = "DOCX") /\
  (~ has_extension filename ".pdf" ->
   ~ has_extension filename ".doc" ->
   ~ has_extension filename ".docx" -> getFileType filename = "TXT") /\
  getFileType (toLowerCase filename) = getFileType filename /\
  (forall front : string,
     5 <= String.length filename ->
     getFileType (front ++ filename)%string = getFileType filename) /\
  getFileType "report.PDF" = "PDF" /\
  getFileType "notes" = "TXT".
Proof.
  repeat split.
  - intros H. apply has_extension_iff in H. destruct H as [H _].
    unfold getFileType. now rewrite H.
  - intros H. apply has_extension_iff in H. destruct H as [H _].
    unfold getFileType. now rewrite (doc_excludes_pdf _ H), H.
  - intros H. apply has_extension_iff in H. destruct H as [H _].
    destruct (docx_excludes_pdf_and_doc _ H) as [H1 H2].
    unfold getFileType. now rewrite H1, H2, H.
  - intros H1 H2 H3. unfold getFileType.
    destruct (endsWith (toLowerCase filename) ".pdf") eqn:E1.
    { exfalso. apply H1, has_extension_iff. now split. }
    destruct (endsWith (toLowerCase filename) ".doc") eqn:E2.
    { exfalso. apply H2, has_extension_iff. now split. }
    destruct (endsWith (toLowerCase filename) ".docx") eqn:E3.
    { exfalso. apply H3, has_extension_iff. now split. }
    reflexivity.
  - unfold getFileType. now rewrite toLowerCase_idempotent.
  - intros front Hlen. unfold getFileType.
    rewrite toLowerCase_app.
    rewrite !endsWith_app by (rewrite toLowerCase_length; simpl; lia).
    reflexivity.
Qed.

(** The first three parts of [getFileType_by_extension], at names in mixed
    case. *)
Lemma getFileType_by_extension_witness :
  (has_extension "Report.Pdf" ".pdf" /\ getFileType "Report.Pdf" = "PDF") /\
  (has_extension "letter.DOC" ".doc" /\ getFileType "letter.DOC" = "DOC") /\
  (has_extension "thesis.docX" ".docx" /\ getFileType "thesis.docX" = "DOCX").
Proof.
  assert (H1 : has_extension "Report.Pdf" ".pdf").
  { exists "Report"%string, ".Pdf"%string. split; reflexivity. }
  assert (H2 : has_extension "letter.DOC" ".doc").
  { exists "letter"%string, ".DOC"%string. split; reflexivity. }
  assert (H3 : has_extension "thesis.docX" ".docx").
  { exists "thesis"%string, ".docX"%string. split; reflexivity. }
  destruct (getFileType_by_extension "Report.Pdf") as (Hpdf & _).
  destruct (getFileType_by_extension "letter.DOC") as (_ & Hdoc & _).
  destruct (getFileType_by_extension "thesis.docX") as (_ & _ & Hdocx & _).
  exact (conj (conj H1 (Hpdf H1)) (conj (conj H2 (Hdoc H2)) (conj H3 (Hdocx H3)))).
Defined.

(** C10.  The icon and the type label of a file name agree: the icon is the
    page exactly when the label is [PDF], the clipboard exactly when the
    label is [DOC] or [DOCX], and the memo exactly when the label is
    [TXT]. *)
Theorem icon_agrees_with_type (filename : string) :
  (getFileIcon filename = "📄" <-> getFileType filename = "PDF") /\
  (getFileIcon filename = "📋" <->
     getFileType filename = "DOC" \/ getFileType filename = "DOCX") /\
  (getFileIcon filename = "📝" <-> getFileType filename = "TXT").
Proof.
  unfold getFileIcon, getFileType.
  destruct (endsWith (toLowerCase filename) ".pdf");
  destruct (endsWith (toLowerCase filename) ".doc");
  destruct (endsWith (toLowerCase filename) ".docx"); simpl;
  repeat split; intros H; try discriminate H; try reflexivity;
  try (destruct H as [H|H]; discriminate H); auto.
Qed.

End DisplayHelpers.

(* ================================================================== *)
(** * The liveness probe *)
(* ================================================================== *)

Section Probe.

(** C6.  [checkApiStatus] asks for the root of the backend and changes
    nothing until the answer comes.  When it comes, [apiStatus] is [online]
    for a response with a 2xx status and [offline] for any other response
    and for a transport failure; it is never left at [checking], and
    nothing stays in flight. *)
Theorem checkApiStatus_settles (s : State) (o : settled Response) :
  let c0 := call checkApiStatus s in
  let c1 := deliver 0 o c0 in
  state c0 = s /\
  map requested_url (log c0) =
    [Some "https://knowledgescout-backend.onrender.com/"%string] /\
  apiStatus (state c1) =
    match o with
    | Fulfilled response =>
        if ((200 <=? status response) && (status response <=? 299))%Z
        then online else offline
    | Rejected _ => offline
    end /\
  apiStatus (state c1) <> checking /\
  waiting c1 = [].
Proof.
  cbn. unfold deliver. cbn.
  destruct o as [response|e]; cbn.
  - unfold ok. destruct ((200 <=? status response) && (status response <=? 299))%Z;
      cbn; repeat split; discriminate.
  - repeat split; discriminate.
Qed.

End Probe.

(* ================================================================== *)
(** * The document list *)
(* ================================================================== *)

Section Documents.

(** What [fetchDocuments] does with every outcome of its request.  The
    status of the response is not looked at: a response whose body is JSON
    replaces the list, whatever its status; a transport failure, a body that
    is not JSON and a body that is [null] are logged and change nothing. *)
Lemma fetchDocuments_outcome (s : State) (o : settled Response) :
  let c1 := answered o (call fetchDocuments s) in
  waiting c1 = [] /\
  filter is_alert (log c1) = [] /\
  match o with
  | Fulfilled response =>
      match json response with
      | Fulfilled data =>
          match get data "documents" with
          | Fulfilled data_documents =>
              documents (state c1) = logical_or data_documents (JArr []) /\
              filter is_console_error (log c1) = []
          | Rejected e =>
              state c1 = s /\
              filter is_console_error (log c1) =
                [Performed (ConsoleError "Failed to fetch documents:" e)]
          end
      | Rejected e =>
          state c1 = s /\
          filter is_console_error (log c1) =
            [Performed (ConsoleError "Failed to fetch documents:" e)]
      end
  | Rejected e =>
      state c1 = s /\
      filter is_console_error (log c1) =
        [Performed (ConsoleError "Failed to fetch documents:" e)]
  end.
Proof.
  unfold call, answered, deliver, body_arrives. cbn.
  destruct o as [response|e]; cbn; [|auto].
  destruct (json response) as [data|e]; cbn; [|auto].
  destruct (get data "documents"); cbn; auto.
Qed.

(** A refresh that the transport fails leaves the whole state as it was and
    logs the failure without alerting the user. *)
Lemma fetchDocuments_transport_failure (s : State) (e : error) :
  let c1 := answered (Rejected e) (call fetchDocuments s) in
  state c1 = s /\
  filter is_alert (log c1) = [] /\
  filter is_console_error (log c1) =
    [Performed (ConsoleError "Failed to fetch documents:" e)].
Proof.
  destruct (fetchDocuments_outcome s (Rejected e)) as (_ & Halert & Hstate & Hlog).
  auto.
Qed.

(** C1.  On a page that lists one document, a refresh answered by status
    500 with a JSON body failed, yet [fetchDocuments] empties the list and
    logs nothing. *)
Theorem fetchDocuments_server_error_empties_list :
  let c1 := answered (Fulfilled server_error) (call fetchDocuments listing_page) in
  request_failed (Fulfilled server_error) = true /\
  documents listing_page = one_document /\
  documents (state c1) = JArr [] /\
  filter is_console_error (log c1) = [] /\
  filter is_alert (log c1) = [].
Proof.
  cbv. repeat split.
Qed.

End Documents.

(* ================================================================== *)
(** * Asking a question *)
(* ================================================================== *)

Section Ask.

(** C9.  When the question is empty once trimmed, [askQuestion] does
    nothing at all: on any page, with anything in flight, the state, the
    log and the suspended functions are what they were, so no request is
    made. *)
Theorem askQuestion_blank_is_noop (render : State) (c : Config) :
  trim (question render) = "" ->
  advance (askQuestion render) c = c.
Proof.
  intros H. unfold askQuestion. rewrite H. reflexivity.
Qed.

Lemma askQuestion_blank_is_noop_witness :
  trim (question blank_page) = "" /\
  call (askQuestion blank_page) blank_page = at_rest blank_page.
Proof.
  split; [reflexivity|].
  apply (askQuestion_blank_is_noop blank_page (at_rest blank_page)).
  reflexivity.
Defined.

(** C2.  When the request of [askQuestion] fails, by the transport or by a
    status that is not 2xx, the chat history and the question are what
    they were, the failure alert is the one alert shown, and nothing stays
    in flight. *)
Theorem askQuestion_failure_keeps_chat (s : State) (o : settled Response) :
  trim (question s) <> "" ->
  request_failed o = true ->
  let c1 := answered o (call (askQuestion s) s) in
  chatHistory (state c1) = chatHistory s /\
  question (state c1) = question s /\
  filter is_alert (log c1) = [ask_failed_alert] /\
  waiting c1 = [].
Proof.
  intros Hq Hf. unfold call, askQuestion.
  apply nonempty_true_iff in Hq. rewrite Hq. cbn.
  unfold answered, deliver, body_arrives. cbn.
  destruct o as [response|e]; cbn in *.
  - apply negb_true_iff in Hf. rewrite Hf. cbn. auto.
  - auto.
Qed.

Lemma askQuestion_failure_keeps_chat_witness :
  let c1 := answered (Fulfilled server_error)
              (call (askQuestion asking_page) asking_page) in
  chatHistory (state c1) = [] /\
  question (state c1) = "What is X?" /\
  filter is_alert (log c1) = [ask_failed_alert] /\
  waiting c1 = [].
Proof.
  apply (askQuestion_failure_keeps_chat asking_page (Fulfilled server_error)).
  - discriminate.
  - reflexivity.
Defined.

(** C3.  When the question is not empty once trimmed and the 2xx response
    is an object with answer [a], [askQuestion] puts one turn at the end of
    the chat history and keeps the turns before it: the turn holds the
    question as typed, [a], and the sources of the response when they are a
    sequence or the empty sequence when the response has none.  The
    question is then the empty string, no alert is shown and nothing stays
    in flight. *)
Theorem askQuestion_success_appends_turn
  (s : State) (response : Response) (fields : list (string * jsval)) (a : jsval) :
  trim (question s) <> "" ->
  ok response = true ->
  json response = Fulfilled (JObj fields) ->
  lookup "answer" fields = Some a ->
  let c1 := answered (Fulfilled response) (call (askQuestion s) s) in
  (forall l, lookup "sources" fields = Some (JArr l) ->
     chatHistory (state c1) =
       chatHistory s ++ [ChatMessage.Build (question s) a (JArr l)]) /\
  (lookup "sources" fields = None ->
     chatHistory (state c1) =
       chatHistory s ++ [ChatMessage.Build (question s) a (JArr [])]) /\
  List.length (chatHistory (state c1)) = S (List.length (chatHistory s)) /\
  question (state c1) = "" /\
  filter is_alert (log c1) = [] /\
  waiting c1 = [].
Proof.
  intros Hq Hok Hjson Ha. unfold call, askQuestion.
  apply nonempty_true_iff in Hq. rewrite Hq. cbn.
  unfold answered, deliver, body_arrives. cbn.
  rewrite Hok. cbn. rewrite Hjson. cbn.
  rewrite Ha.
  destruct (lookup "sources" fields) as [src|] eqn:Hs; cbn.
  - repeat split; try discriminate.
    + intros l [= ->]. reflexivity.
    + rewrite List.length_app. cbn. lia.
  - repeat split; try discriminate.
    rewrite List.length_app. cbn. lia.
Qed.

(** The question [What is X?] answered by [X is Y] with the source
    [a.txt]. *)
Lemma askQuestion_success_appends_turn_witness :
  let c1 := answered (Fulfilled answer_with_source)
              (call (askQuestion asking_page) asking_page) in
  chatHistory (state c1) =
    [ChatMessage.Build "What is X?" (JStr "X is Y")
       (JArr [JObj [("filename", JStr "a.txt")]])] /\
  question (state c1) = "".
Proof.
  destruct (askQuestion_success_appends_turn asking_page answer_with_source
              [("answer", JStr "X is Y");
               ("sources", JArr [JObj [("filename", JStr "a.txt")]])]
              (JStr "X is Y"))
    as (Hsome & _ & _ & Hquestion & _).
  - discriminate.
  - reflexivity.
  - reflexivity.
  - reflexivity.
  - split; [|exact Hquestion].
    exact (Hsome [JObj [("filename", JStr "a.txt")]] eq_refl).
Defined.

End Ask.

(* ================================================================== *)
(** * Uploading a document *)
(* ================================================================== *)

Section Upload.

(** The test of [handleFileUpload] accepts the names that end, whatever the
    case, in one of the four allowed extensions. *)
Lemma isValidType_iff (filename : string) :
  existsb (endsWith (toLowerCase filename)) allowedTypes = true <->
  exists ext, In ext allowedTypes /\ has_extension filename ext.
Proof.
  rewrite existsb_exists. split.
  - intros (ext & Hin & Hends). exists ext. split; [exact Hin|].
    apply has_extension_iff. split; [exact Hends|].
    simpl in Hin. destruct Hin as [<-|[<-|[<-|[<-|[]]]]]; reflexivity.
  - intros (ext & Hin & Hext). exists ext. split; [exact Hin|].
    now apply has_extension_iff in Hext.
Qed.

(** C4.  For a file whose name, in lower case, ends in none of [.txt],
    [.pdf], [.doc] and [.docx], [handleFileUpload] shows the alert and does
    nothing else: on any page the state and the suspended functions are
    what they were, and the log only gains the alert, so no request is
    made. *)
Theorem handleFileUpload_rejects_other_extensions
  (event : ChangeEvent) (file : File) (c : Config) :
  first_file event = Some file ->
  endsWith (toLowerCase (file_name file)) ".txt" = false ->
  endsWith (toLowerCase (file_name file)) ".pdf" = false ->
  endsWith (toLowerCase (file_name file)) ".doc" = false ->
  endsWith (toLowerCase (file_name file)) ".docx" = false ->
  let c' := advance (handleFileUpload event) c in
  state c' = state c /\
  waiting c' = waiting c /\
  log c' = log c ++ [invalid_type_alert] /\
  filter is_request (log c') = filter is_request (log c).
Proof.
  intros Hfile H1 H2 H3 H4. unfold handleFileUpload. rewrite Hfile.
  cbn -[toLowerCase endsWith].
  rewrite H1, H2, H3, H4. cbn.
  repeat split. rewrite filter_app. cbn. apply app_nil_r.
Qed.

Lemma handleFileUpload_rejects_other_extensions_witness :
  call (handleFileUpload (picked photo_png)) listing_page =
    {| state := listing_page; log := [invalid_type_alert]; waiting := [] |}.
Proof.
  destruct (handleFileUpload_rejects_other_extensions
              (picked photo_png) photo_png (at_rest listing_page)
              eq_refl eq_refl eq_refl eq_refl eq_refl)
    as (Hstate & Hwaiting & Hlog & _).
  unfold call. fold (at_rest listing_page).
  destruct (advance (handleFileUpload (picked photo_png)) (at_rest listing_page))
    as [s l w].
  cbn in Hstate, Hwaiting, Hlog. now subst.
Defined.


(** Nor is one answered by status 200 with a JSON body whose [filename] has
    no text: the template literal of the confirmation throws, the [catch]
    shows its alert, and [fetchDocuments] is not reached. *)
Lemma upload_2xx_without_text_skips_refresh :
  let c1 := answered (Fulfilled upload_without_text)
              (call (handleFileUpload (picked notes_txt)) initial) in
  refreshes (log c1) = 0 /\
  waiting c1 = [] /\
  filter is_alert (log c1) =
    [Performed
       (WindowAlert
          [Text "Upload failed: ";
           Thrown (Error "TypeError" "Cannot convert object to primitive value")])].
Proof.
  vm_compute. repeat split.
Qed.



End Upload.

(* ================================================================== *)
(** * The busy flag *)
(* ================================================================== *)

Section Busy.

(** The function settled when the answer came, without reading a body. *)
Ltac settled_early := split; [left; reflexivity | auto].

(** The function went on to read the body, with the flag up. *)
Ltac reading_body := right; split; [do 2 eexists; reflexivity | reflexivity].

(** C5.  Whatever the outcome of the request, an upload of an accepted file
    and a question that is not empty once trimmed hold the busy flag around
    the request: [setLoading(true)] comes first and before the request, the
    flag is up while the function waits, and [setLoading(false)] comes last
    on every way out, with no other call of [setLoading] in between. *)
Theorem busy_flag_spans_request (s : State) (o : settled Response) :
  (forall event file,
     first_file event = Some file ->
     existsb (endsWith (toLowerCase (file_name file))) allowedTypes = true ->
     busy_around_request (call (handleFileUpload event) s) o) /\
  (trim (question s) <> "" ->
   busy_around_request (call (askQuestion s) s) o).
Proof.
  split.
  - intros event file Hfile Hvalid. unfold call, handleFileUpload. rewrite Hfile.
    cbn -[existsb allowedTypes toLowerCase].
    change (existsb _ allowedTypes)
      with (existsb (endsWith (toLowerCase (file_name file))) allowedTypes).
    rewrite Hvalid. cbn. unfold busy_around_request, deliver, body_arrives. cbn.
    split; [do 2 eexists; split; reflexivity|].
    split; [reflexivity|].
    destruct o as [response|e]; cbn; [|settled_early].
    destruct (ok response); cbn; [|settled_early].
    split; [reading_body|].
    destruct (json response) as [result|e]; cbn; [|auto].
    destruct (get result "filename") as [filename|e]; cbn; [|auto].
    unfold ToString.
    destruct (convertible filename); cbn; [|auto].
    destruct (get result "file_type") as [file_type|e]; cbn; [|auto].
    destruct (convertible file_type); cbn; auto.
  - intros Hq. unfold call, askQuestion.
    apply nonempty_true_iff in Hq. rewrite Hq. cbn.
    unfold busy_around_request, deliver, body_arrives. cbn.
    split; [do 2 eexists; split; reflexivity|].
    split; [reflexivity|].
    destruct o as [response|e]; cbn; [|settled_early].
    destruct (ok response); cbn; [|settled_early].
    split; [reading_body|].
    destruct (json response) as [data|e]; cbn; [|auto].
    unfold perform. cbn.
    destruct (get data "answer"); cbn; [|auto].
    destruct (get data "sources"); cbn; auto.
Qed.

(** The flag around an accepted upload and around a question whose request
    the transport fails. *)
Lemma busy_flag_spans_request_witness :
  busy_around_request (call (handleFileUpload (picked notes_txt)) initial)
    (Fulfilled upload_created) /\
  busy_around_request (call (askQuestion asking_page) asking_page)
    (Rejected (Error "TypeError" "Failed to fetch")).
Proof.
  split.
  - apply (busy_flag_spans_request initial (Fulfilled upload_created))
      with (file := notes_txt); reflexivity.
  - apply (busy_flag_spans_request asking_page
             (Rejected (Error "TypeError" "Failed to fetch"))).
    discriminate.
Defined.

End Busy.

(* ================================================================== *)
(** * Runs of the page *)
(* ================================================================== *)

Import Controls.

Section ProcInduction.

(** Induction on the body of a function that returns nothing. *)
Lemma proc_unit_ind (G : proc unit -> Prop) :
  (forall a, G (Ret a)) ->
  (forall e, G (Throw e)) ->
  (forall eff k, G k -> G (Do eff k)) ->
  (forall rq k, (forall o, G (k o)) -> G (Fetch rq k)) ->
  (forall response k, (forall o, G (k o)) -> G (ReadJson response k)) ->
  (forall callee k, G callee -> G k -> G (Spawn callee k)) ->
  forall p, G p.
Proof.
  intros HRet HThrow HDo HFetch HRead HSpawn.
  fix IH 1. intros [a|e|eff k|rq k|response k|callee k].
  - apply HRet.
  - apply HThrow.
  - apply HDo, IH.
  - apply HFetch. intros o. apply IH.
  - apply HRead. intros o. apply IH.
  - apply HSpawn; apply IH.
Qed.

End ProcInduction.

Section Lists.

Lemma Forall_removed (A : Type) (F : A -> Prop) (l : list A) (i : nat) (x : A) :
  nth_error l i = Some x ->
  Forall F l -> F x /\ Forall F (firstn i l ++ skipn (S i) l).
Proof.
  intros Hn HF. rewrite <- (firstn_skipn_middle _ _ Hn) in HF.
  apply Forall_app in HF. destruct HF as [H1 H2].
  apply Forall_cons_iff in H2. destruct H2 as [Hx H2].
  split; [exact Hx|]. apply Forall_app. now split.
Qed.

Lemma last_cons (A : Type) (x d : A) (l : list A) :
  last (x :: l) d = last l x.
Proof.
  revert x d. induction l as [|y l IH]; intros x d; [reflexivity|].
  change (last (x :: y :: l) d) with (last (y :: l) d).
  now rewrite !IH.
Qed.

End Lists.

Section SafeRuns.

Variable P : effect -> Prop.
Variable Q : Request -> Prop.

Lemma safe_weaken (P' : effect -> Prop) (Q' : Request -> Prop) :
  (forall eff, P eff -> P' eff) ->
  (forall rq, Q rq -> Q' rq) ->
  forall (A : Type) (p : proc A), safe P Q p -> safe P' Q' p.
Proof.
  intros HP HQ. fix IH 2. intros A [a|e|eff k|rq k|response k|callee k]; simpl.
  - trivial.
  - trivial.
  - intros [H1 H2]. split; [apply HP, H1 | apply IH, H2].
  - intros [H1 H2]. split; [apply HQ, H1 | intros o; apply IH, H2].
  - intros H o. apply IH, H.
  - intros [H1 H2]. split; apply IH; assumption.
Qed.

(** An effect adds to the log and leaves the suspended functions alone. *)
Lemma perform_appends (eff : effect) (c : Config) :
  P eff ->
  waiting (perform eff c) = waiting c /\
  exists evs, log (perform eff c) = log c ++ evs /\ Forall (event_safe P Q) evs.
Proof.
  intros HP. unfold perform. destruct eff as [st|text|label e]; simpl.
  - destruct (apply_setter st (state c)); simpl; (split; [reflexivity|]);
      eexists; (split; [reflexivity|]); repeat constructor; exact HP.
  - split; [reflexivity|]. eexists. split; [reflexivity|].
    repeat constructor; exact HP.
  - split; [reflexivity|]. eexists. split; [reflexivity|].
    repeat constructor; exact HP.
Qed.

(** A function that is within [P] and [Q] adds suspended functions and
    events that are. *)
Lemma advance_appends (p : proc unit) :
  forall c, safe P Q p ->
  exists ts evs,
    waiting (advance p c) = waiting c ++ ts /\ Forall (task_safe P Q) ts /\
    log (advance p c) = log c ++ evs /\ Forall (event_safe P Q) evs.
Proof.
  induction p as [a|e|eff k IH|rq k IH|response k IH|callee k IHc IHk]
    using proc_unit_ind; intros c Hp; simpl in *.
  - exists [], []. rewrite !app_nil_r. auto.
  - destruct Hp.
  - destruct Hp as [H1 H2].
    destruct (perform_appends eff c H1) as (Hw & evs1 & Hl & Hevs1).
    destruct (IH (perform eff c) H2) as (ts & evs2 & Hw2 & Hts & Hl2 & Hevs2).
    exists ts, (evs1 ++ evs2). rewrite Hw2, Hw, Hl2, Hl, <- List.app_assoc.
    repeat split; try assumption. apply Forall_app. now split.
  - destruct Hp as [H1 H2].
    exists [AwaitingFetch rq k], [Requested rq].
    repeat split; repeat constructor; assumption.
  - exists [AwaitingJson response k], []. rewrite app_nil_r.
    repeat split; repeat constructor; assumption.
  - destruct Hp as [H1 H2].
    destruct (IHc c H1) as (ts1 & evs1 & Hw1 & Hts1 & Hl1 & Hevs1).
    destruct (IHk (advance callee c) H2) as (ts2 & evs2 & Hw2 & Hts2 & Hl2 & Hevs2).
    exists (ts1 ++ ts2), (evs1 ++ evs2).
    rewrite Hw2, Hw1, Hl2, Hl1, <- !List.app_assoc.
    repeat split; try apply Forall_app; auto.
Qed.

Lemma advance_safe (p : proc unit) (c : Config) :
  safe P Q p -> config_safe P Q c -> config_safe P Q (advance p c).
Proof.
  intros Hp [Hw Hl].
  destruct (advance_appends p c Hp) as (ts & evs & Hw' & Hts & Hl' & Hevs).
  unfold config_safe. rewrite Hw', Hl'.
  split; apply Forall_app; now split.
Qed.

Lemma without_safe (i : nat) (t : task) (c : Config) :
  nth_error (waiting c) i = Some t ->
  config_safe P Q c -> task_safe P Q t /\ config_safe P Q (without i c).
Proof.
  intros Hn [Hw Hl].
  destruct (Forall_removed _ _ _ _ _ Hn Hw) as [Ht Hrest].
  split; [exact Ht|]. split; [exact Hrest | exact Hl].
Qed.

Lemma deliver_safe (i : nat) (o : settled Response) (c : Config) :
  config_safe P Q c -> config_safe P Q (deliver i o c).
Proof.
  intros Hc. unfold deliver.
  destruct (nth_error (waiting c) i) as [[rq k|response k]|] eqn:Hn; try exact Hc.
  destruct (without_safe _ _ _ Hn Hc) as [Ht Hc'].
  apply advance_safe; [apply Ht | exact Hc'].
Qed.

Lemma body_arrives_safe (i : nat) (c : Config) :
  config_safe P Q c -> config_safe P Q (body_arrives i c).
Proof.
  intros Hc. unfold body_arrives.
  destruct (nth_error (waiting c) i) as [[rq k|response k]|] eqn:Hn; try exact Hc.
  destruct (without_safe _ _ _ Hn Hc) as [Ht Hc'].
  apply advance_safe; [apply Ht | exact Hc'].
Qed.

(** A relation between states that every allowed update respects, and the
    failure of a render. *)
Variable R : State -> State -> Prop.
Hypothesis R_refl : forall s, R s s.
Hypothesis R_trans : forall s1 s2 s3, R s1 s2 -> R s2 s3 -> R s1 s3.
Hypothesis R_update : forall st s s',
  P (Update st) -> apply_setter st s = Fulfilled s' -> R s s'.
Hypothesis R_fail : forall e s, R s (fail_render e s).

Lemma perform_related (eff : effect) (c : Config) :
  P eff -> R (state c) (state (perform eff c)).
Proof.
  intros HP. unfold perform. destruct eff as [st|text|label e]; simpl.
  - destruct (apply_setter st (state c)) eqn:E; simpl.
    + eapply R_update; eassumption.
    + apply R_fail.
  - apply R_refl.
  - apply R_refl.
Qed.

Lemma advance_related (p : proc unit) :
  forall c, safe P Q p -> R (state c) (state (advance p c)).
Proof.
  induction p as [a|e|eff k IH|rq k IH|response k IH|callee k IHc IHk]
    using proc_unit_ind; intros c Hp; simpl in *.
  - apply R_refl.
  - apply R_refl.
  - destruct Hp as [H1 H2].
    eapply R_trans; [apply perform_related, H1 | apply IH, H2].
  - apply R_refl.
  - apply R_refl.
  - destruct Hp as [H1 H2].
    eapply R_trans; [apply IHc, H1 | apply IHk, H2].
Qed.

(** Resuming a suspended function that is within [P] and [Q]. *)
Lemma deliver_related (i : nat) (o : settled Response) (c : Config) :
  Forall (task_safe P Q) (waiting c) -> R (state c) (state (deliver i o c)).
Proof.
  intros Hc. unfold deliver.
  destruct (nth_error (waiting c) i) as [[rq k|response k]|] eqn:Hn;
    try apply R_refl.
  change (state c) with (state (without i c)) at 1.
  apply advance_related.
  destruct (Forall_removed _ _ _ _ _ Hn Hc) as [Ht _]. apply Ht.
Qed.

Lemma body_arrives_related (i : nat) (c : Config) :
  Forall (task_safe P Q) (waiting c) -> R (state c) (state (body_arrives i c)).
Proof.
  intros Hc. unfold body_arrives.
  destruct (nth_error (waiting c) i) as [[rq k|response k]|] eqn:Hn;
    try apply R_refl.
  change (state c) with (state (without i c)) at 1.
  apply advance_related.
  destruct (Forall_removed _ _ _ _ _ Hn Hc) as [Ht _]. apply Ht.
Qed.

End SafeRuns.

Section Component.

Lemma logical_or_truthy (v : jsval) : truthy (logical_or v (JArr [])) = true.
Proof.
  unfold logical_or. destruct (truthy v) eqn:E; [exact E | reflexivity].
Qed.

Lemma checkApiStatus_safe : safe component_effect component_request checkApiStatus.
Proof.
  cbn. split; [now left|].
  intros [response|e]; cbn.
  - destruct (ok response); cbn; split; trivial; discriminate.
  - split; trivial; discriminate.
Qed.

Lemma fetchDocuments_safe : safe component_effect component_request fetchDocuments.
Proof.
  cbn. split; [right; now left|].
  intros [response|e]; cbn; [|auto].
  intros [data|e]; cbn; [|auto].
  destruct (get data "documents"); cbn; [|auto].
  split; [apply logical_or_truthy | trivial].
Qed.

Lemma askQuestion_safe (s : State) :
  safe component_effect component_request (askQuestion s).
Proof.
  unfold askQuestion.
  destruct (nonempty (trim (question s))) eqn:Hq; cbn; [|trivial].
  apply nonempty_true_iff in Hq.
  split; [trivial|]. split.
  { right; right; right. exists (question s). now split. }
  intros [response|e]; cbn; [|auto].
  destruct (ok response); cbn; [|auto].
  intros [data|e]; cbn; [|auto].
  split; [|auto].
  intros h h' H.
  destruct (get data "answer") as [data_answer|e]; [|discriminate H].
  destruct (get data "sources") as [data_sources|e]; [|discriminate H].
  injection H as <-. eexists. split; [reflexivity|].
  split; [exact Hq | apply logical_or_truthy].
Qed.

Lemma handleFileUpload_safe (event : ChangeEvent) :
  safe component_effect component_request (handleFileUpload event).
Proof.
  unfold handleFileUpload.
  destruct (first_file event) as [file|]; [|exact I].
  cbn -[existsb allowedTypes toLowerCase].
  change (existsb _ allowedTypes)
    with (existsb (endsWith (toLowerCase (file_name file))) allowedTypes).
  destruct (existsb _ allowedTypes) eqn:Hvalid; cbn; [|auto].
  split; [trivial|]. split.
  { right; right; left. exists file. now split. }
  intros [response|e]; cbn; [|auto].
  destruct (ok response); cbn; [|auto].
  intros [result|e]; cbn; [|auto].
  destruct (get result "filename") as [filename|e]; cbn; [|auto].
  unfold ToString.
  destruct (convertible filename); cbn; [|auto].
  destruct (get result "file_type") as [file_type|e]; cbn; [|auto].
  destruct (convertible file_type); cbn; [|auto].
  split; [trivial|]. split; [|auto].
  apply fetchDocuments_safe.
Qed.

Lemma mount_safe : safe component_effect component_request mount.
Proof.
  split; [apply checkApiStatus_safe|].
  split; [apply fetchDocuments_safe | exact I].
Qed.

Lemma handler_safe (s : State) (a : action) :
  safe component_effect component_request (handler s a).
Proof.
  destruct a as [value|key| |event]; simpl.
  - auto.
  - destruct (String.eqb key "Enter" && negb (loading s)); [|exact I].
    apply askQuestion_safe.
  - apply askQuestion_safe.
  - apply handleFileUpload_safe.
Qed.

(** Every page of a session is within the contract of the component. *)
Lemma play_safe (m : move) (c : Config) :
  config_safe component_effect component_request c ->
  config_safe component_effect component_request (play m c).
Proof.
  intros Hc. destruct m as [a|i o|i]; simpl.
  - destruct (disabled (state c) a); [exact Hc|].
    apply advance_safe; [apply handler_safe | exact Hc].
  - now apply deliver_safe.
  - now apply body_arrives_safe.
Qed.

Lemma run_safe (ms : list move) :
  forall c, config_safe component_effect component_request c ->
            config_safe component_effect component_request (run ms c).
Proof.
  induction ms as [|m ms IH]; intros c Hc; simpl; [exact Hc|].
  apply IH, play_safe, Hc.
Qed.

Lemma session_safe (ms : list move) :
  config_safe component_effect component_request (session ms).
Proof.
  apply run_safe. apply advance_safe; [apply mount_safe|].
  split; constructor.
Qed.

Lemma run_app (ms ms' : list move) (c : Config) :
  run (ms ++ ms') c = run ms' (run ms c).
Proof.
  apply fold_left_app.
Qed.

Lemma session_app (ms ms' : list move) :
  session (ms ++ ms') = run ms' (session ms).
Proof.
  apply run_app.
Qed.

End Component.

Section ComponentRelation.

(** A relation between states that the effects of the component and the
    failure of a render respect holds between every page of a run and the
    pages after it. *)
Variable R : State -> State -> Prop.
Hypothesis R_refl : forall s, R s s.
Hypothesis R_trans : forall s1 s2 s3, R s1 s2 -> R s2 s3 -> R s1 s3.
Hypothesis R_update : forall st s s',
  component_effect (Update st) -> apply_setter st s = Fulfilled s' -> R s s'.
Hypothesis R_fail : forall e s, R s (fail_render e s).

Lemma play_related (m : move) (c : Config) :
  config_safe component_effect component_request c ->
  R (state c) (state (play m c)).
Proof.
  intros Hc. destruct m as [a|i o|i]; simpl.
  - destruct (disabled (state c) a); [apply R_refl|].
    apply (advance_related component_effect component_request R);
      auto using handler_safe.
  - apply (deliver_related component_effect component_request R); auto.
    apply Hc.
  - apply (body_arrives_related component_effect component_request R); auto.
    apply Hc.
Qed.

Lemma run_related (ms : list move) :
  forall c, config_safe component_effect component_request c ->
            R (state c) (state (run ms c)).
Proof.
  induction ms as [|m ms IH]; intros c Hc; simpl; [apply R_refl|].
  eapply R_trans; [apply play_related, Hc | apply IH, play_safe, Hc].
Qed.

End ComponentRelation.

(* ================================================================== *)
(** * What holds of every session *)
(* ================================================================== *)

Section Sessions.

(** X1. Every request that is ever made is one of the four requests of the
    component: the probe, the listing, the upload of a file whose name has
    an allowed extension, or a question that is not blank. *)
Theorem session_requests_are_valid (ms : list move) (rq : Request) :
  In (Requested rq) (log (session ms)) -> component_request rq.
Proof.
  intros Hin. destruct (session_safe ms) as [_ Hl].
  rewrite Forall_forall in Hl. exact (Hl _ Hin).
Qed.

Lemma session_requests_are_valid_witness :
  component_request
    {| url := ask_url; method := "POST";
       headers := [("Content-Type", "application/json")%string];
       body := JsonText (JObj [("question", JStr "What is X?")]) |}.
Proof.
  apply (session_requests_are_valid
           [User (TypeQuestion "What is X?"); User ClickAsk]).
  simpl. do 4 right. left. reflexivity.
Defined.

(** X2. No function of the component ever ends in a rejection that nothing
    handles. *)
Theorem session_has_no_unhandled_rejection (ms : list move) :
  filter is_unhandled_rejection (log (session ms)) = [].
Proof.
  destruct (session_safe ms) as [_ Hl].
  induction Hl as [|ev l Hev _ IH]; [reflexivity|].
  destruct ev; simpl in *; try exact IH. destruct Hev.
Qed.

(** X3. In every state of a session the list of documents is truthy, and
    every turn of the chat has a question that is not blank and truthy
    sources. *)
Theorem session_data_is_well_formed (ms : list move) :
  truthy (documents (state (session ms))) = true /\
  Forall turn_ok (chatHistory (state (session ms))).
Proof.
  pose (R := fun s s' : State =>
                truthy (documents s) = true /\ Forall turn_ok (chatHistory s) ->
                truthy (documents s') = true /\ Forall turn_ok (chatHistory s')).
  assert (H : R (state (call mount initial)) (state (session ms))).
  { apply (run_related R); unfold R.
    - auto.
    - auto.
    - intros st s s' HP Happly [Hdocs Hturns].
      destruct st as [v|q|updater|b|a]; simpl in *;
        try (injection Happly as <-; simpl; now split).
      destruct (updater (chatHistory s)) as [h|e] eqn:E; [|discriminate Happly].
      injection Happly as <-. simpl. split; [exact Hdocs|].
      destruct (HP _ _ E) as (t & -> & Ht).
      apply Forall_app. split; [exact Hturns|]. now constructor.
    - auto.
    - apply advance_safe; [apply mount_safe | split; constructor]. }
  apply H. split; [reflexivity | constructor].
Qed.

(** X4. The chat history only grows at its end: the turns a session has are
    kept, in order, whatever happens next. *)
Theorem chat_history_only_grows (ms ms' : list move) :
  exists turns,
    chatHistory (state (session (ms ++ ms'))) =
    chatHistory (state (session ms)) ++ turns.
Proof.
  rewrite session_app.
  apply (run_related
           (fun s s' => exists turns, chatHistory s' = chatHistory s ++ turns)).
  - intros s. exists []. symmetry. apply app_nil_r.
  - intros s1 s2 s3 [t1 H1] [t2 H2]. exists (t1 ++ t2).
    now rewrite H2, H1, List.app_assoc.
  - intros st s s' HP Happly.
    destruct st as [v|q|updater|b|a]; simpl in *;
      try (injection Happly as <-; simpl; exists []; symmetry; apply app_nil_r).
    destruct (updater (chatHistory s)) as [h|e] eqn:E; [|discriminate Happly].
    injection Happly as <-. simpl.
    destruct (HP _ _ E) as (t & -> & _). now exists [t].
  - intros e s. exists []. symmetry. apply app_nil_r.
  - apply session_safe.
Qed.

End Sessions.

(* ================================================================== *)
(** * The busy flag in every session *)
(* ================================================================== *)

Section OneSpecial.

Variables special ordinary : task -> Prop.

Lemma one_special_false (ts : list task) :
  one_special special ordinary false ts <-> Forall ordinary ts.
Proof.
  induction ts as [|t ts IH]; simpl.
  - split; [constructor | reflexivity].
  - split.
    + intros [[Ht Hts]|[Hb _]]; [|discriminate Hb].
      constructor; [exact Ht | now apply IH].
    + intros H. apply Forall_cons_iff in H. destruct H as [Ht Hts].
      left. split; [exact Ht | now apply IH].
Qed.

Lemma one_special_app (present : bool) (ts ts' : list task) :
  one_special special ordinary present ts ->
  Forall ordinary ts' ->
  one_special special ordinary present (ts ++ ts').
Proof.
  intros Hts Hts'. induction ts as [|t ts IH]; simpl in *.
  - subst present. now apply one_special_false.
  - destruct Hts as [[Ht Hts]|(Hb & Ht & Hts)].
    + left. split; [exact Ht | now apply IH].
    + right. repeat split; try assumption. apply Forall_app. now split.
Qed.

Lemma one_special_last (ts : list task) (t : task) :
  Forall ordinary ts -> special t ->
  one_special special ordinary true (ts ++ [t]).
Proof.
  intros Hts Ht. induction Hts as [|t' ts Ht' _ IH]; simpl.
  - right. repeat split; [exact Ht | constructor].
  - left. now split.
Qed.

Lemma one_special_removed (present : bool) (i : nat) (t : task) :
  forall ts,
  nth_error ts i = Some t ->
  one_special special ordinary present ts ->
  (ordinary t /\
   one_special special ordinary present (firstn i ts ++ skipn (S i) ts)) \/
  (present = true /\ special t /\
   Forall ordinary (firstn i ts ++ skipn (S i) ts)).
Proof.
  induction i as [|i IH]; intros [|t' ts] Hn Hts; try discriminate Hn.
  - injection Hn as ->. simpl in *.
    destruct Hts as [[Ht Hts]|(Hb & Ht & Hts)]; [left | right]; auto.
  - simpl in Hn. cbn [firstn skipn app].
    destruct Hts as [[Ht' Hts]|(Hb & Ht' & Hts)].
    + destruct (IH ts Hn Hts) as [[Ht Hrest]|(Hb & Ht & Hrest)].
      * left. split; [exact Ht|]. left. now split.
      * right. repeat split; try assumption. now constructor.
    + left. destruct (Forall_removed _ _ _ _ _ Hn Hts) as [Ht Hrest].
      split; [exact Ht|]. right. now repeat split.
Qed.

End OneSpecial.

Section BusyFlag.

Lemma loading_calls_app (l l' : list event) :
  loading_calls (l ++ l') = loading_calls l ++ loading_calls l'.
Proof.
  apply flat_map_app.
Qed.

Lemma quiet_events_make_no_call (evs : list event) :
  Forall (event_safe (fun eff => is_setLoading (Performed eff) = false)
            (fun rq => is_busy_url (url rq) = false)) evs ->
  loading_calls evs = [].
Proof.
  induction 1 as [|ev evs Hev _ IH]; [reflexivity|].
  destruct ev as [[[v|q|u|b|a]|text|label e]|rq|e]; simpl in *;
    try exact IH; discriminate Hev.
Qed.

Lemma alternates_next (flags : list bool) :
  forall expected x,
  alternates expected (flags ++ [x]) = true ->
  alternates expected (flags ++ [x; negb x]) = true.
Proof.
  induction flags as [|b flags IH]; intros expected x H; simpl in *.
  - apply andb_prop in H. destruct H as [H _].
    apply eqb_prop in H. subst x.
    now rewrite eqb_reflx, eqb_reflx.
  - apply andb_prop in H. destruct H as [H1 H2].
    rewrite H1. simpl. now apply IH.
Qed.

Lemma alternates_front (flags : list bool) :
  forall expected x,
  alternates expected (flags ++ [x]) = true ->
  alternates expected flags = true /\ last flags (negb expected) = negb x.
Proof.
  induction flags as [|b flags IH]; intros expected x H; simpl in H.
  - apply andb_prop in H. destruct H as [H _].
    apply eqb_prop in H. subst x. now split.
  - apply andb_prop in H. destruct H as [H1 H2].
    apply eqb_prop in H1. subst b.
    destruct (IH _ _ H2) as [Ha Hl]. rewrite negb_involutive in Hl.
    split.
    + simpl. now rewrite eqb_reflx, Ha.
    + now rewrite last_cons.
Qed.

(** A quiet function adds quiet suspended functions and leaves the flag and
    its history as they are. *)
Lemma advance_quiet (p : proc unit) (c : Config) :
  quiet p ->
  exists ts,
    waiting (advance p c) = waiting c ++ ts /\
    Forall task_quiet ts /\
    loading_calls (log (advance p c)) = loading_calls (log c) /\
    loading (state (advance p c)) = loading (state c).
Proof.
  intros Hp.
  destruct (advance_appends _ _ p c Hp) as (ts & evs & Hw & Hts & Hl & Hevs).
  exists ts. repeat split; try assumption.
  - rewrite Hl, loading_calls_app, (quiet_events_make_no_call _ Hevs).
    apply app_nil_r.
  - apply (advance_related
             (fun eff => is_setLoading (Performed eff) = false)
             (fun rq => is_busy_url (url rq) = false)
             (fun s s' => loading s' = loading s)); try exact Hp.
    + reflexivity.
    + intros s1 s2 s3 H1 H2. now rewrite H2.
    + intros st s s' HP Happly.
      destruct st as [v|q|u|b|a]; simpl in *;
        try (injection Happly as <-; reflexivity); try discriminate HP.
      destruct (u (chatHistory s)); [|discriminate Happly].
      injection Happly as <-. reflexivity.
    + reflexivity.
Qed.

(** An effect other than a call of [setLoading]. *)
Lemma perform_other (eff : effect) (c : Config) :
  is_setLoading (Performed eff) = false ->
  waiting (perform eff c) = waiting c /\
  loading_calls (log (perform eff c)) = loading_calls (log c) /\
  loading (state (perform eff c)) = loading (state c).
Proof.
  intros H. unfold perform.
  destruct eff as [[v|q|u|b|a]|text|label e]; simpl in *; try discriminate H;
    rewrite ?loading_calls_app; simpl; rewrite ?app_nil_r; auto.
  destruct (u (chatHistory (state c))); simpl;
    rewrite ?loading_calls_app; simpl; rewrite ?app_nil_r; auto.
Qed.

(** A function that holds the flag either suspends holding it or lowers
    it. *)
Lemma advance_lowers (p : proc unit) :
  forall c, lowers p ->
  (exists ts t,
     waiting (advance p c) = waiting c ++ ts ++ [t] /\
     Forall task_quiet ts /\ task_busy t /\
     loading_calls (log (advance p c)) = loading_calls (log c) /\
     loading (state (advance p c)) = loading (state c)) \/
  (exists ts,
     waiting (advance p c) = waiting c ++ ts /\
     Forall task_quiet ts /\
     loading_calls (log (advance p c)) = loading_calls (log c) ++ [false] /\
     loading (state (advance p c)) = false).
Proof.
  induction p as [a|e|eff k IH|rq k IH|response k IH|callee k IHc IHk]
    using proc_unit_ind; intros c Hp.
  - destruct Hp.
  - destruct Hp.
  - destruct (is_setLoading (Performed eff)) eqn:Heff.
    + destruct eff as [[v|q|u|b|a]|text|label e]; try discriminate Heff.
      destruct Hp as [-> Hk]. right. cbn [advance].
      destruct (advance_quiet k (perform (Update (setLoading false)) c) Hk)
        as (ts & Hw & Hts & Hl & Hs).
      exists ts. rewrite Hw, Hl, Hs. simpl.
      rewrite loading_calls_app. auto.
    + assert (Hk : lowers k).
      { destruct eff as [[v|q|u|b|a]|text|label e]; try exact Hp.
        discriminate Heff. }
      destruct (perform_other eff c Heff) as (Hw & Hl & Hs).
      cbn [advance]. rewrite <- Hw, <- Hl, <- Hs. apply IH, Hk.
  - destruct Hp.
  - left. exists [], (AwaitingJson response k). simpl.
    repeat split; auto.
  - destruct Hp as [Hc Hk]. cbn [advance].
    destruct (advance_quiet callee c Hc) as (ts & Hw & Hts & Hl & Hs).
    destruct (IHk (advance callee c) Hk)
      as [(ts' & t & Hw' & Hts' & Ht & Hl' & Hs')|(ts' & Hw' & Hts' & Hl' & Hs')].
    + left. exists (ts ++ ts'), t.
      rewrite Hw', Hw, Hl', Hl, Hs', Hs, <- !List.app_assoc.
      repeat split; auto. apply Forall_app. now split.
    + right. exists (ts ++ ts').
      rewrite Hw', Hw, Hl', Hl, Hs', <- !List.app_assoc.
      repeat split; auto. apply Forall_app. now split.
Qed.

Lemma checkApiStatus_quiet : quiet checkApiStatus.
Proof.
  cbn. split; [reflexivity|].
  intros [response|e]; cbn; [destruct (ok response); cbn|]; auto.
Qed.

Lemma fetchDocuments_quiet : quiet fetchDocuments.
Proof.
  cbn. split; [reflexivity|].
  intros [response|e]; cbn; [|auto].
  intros [data|e]; cbn; [|auto].
  destruct (get data "documents"); cbn; auto.
Qed.

Lemma askQuestion_quiet_or_raises (s : State) :
  quiet (askQuestion s) \/ raises (askQuestion s).
Proof.
  unfold askQuestion.
  destruct (nonempty (trim (question s))); cbn; [right | left; exact I].
  intros [response|e]; cbn; [|repeat split].
  destruct (ok response); cbn; [|repeat split].
  intros [data|e]; cbn; repeat split.
Qed.

Lemma handleFileUpload_quiet_or_raises (event : ChangeEvent) :
  quiet (handleFileUpload event) \/ raises (handleFileUpload event).
Proof.
  unfold handleFileUpload.
  destruct (first_file event) as [file|]; [|left; exact I].
  destruct (negb _); cbn; [left; repeat split | right].
  intros [response|e]; cbn; [|repeat split].
  destruct (ok response); cbn; [|repeat split].
  intros [result|e]; cbn; [|repeat split].
  destruct (get result "filename") as [filename|e]; cbn; [|repeat split].
  unfold ToString.
  destruct (convertible filename); cbn; [|repeat split].
  destruct (get result "file_type") as [file_type|e]; cbn; [|repeat split].
  destruct (convertible file_type); cbn; [|repeat split].
  split; [apply fetchDocuments_quiet | repeat split].
Qed.

Lemma handler_quiet_or_raises (s : State) (a : action) :
  quiet (handler s a) \/ raises (handler s a).
Proof.
  destruct a as [value|key| |event]; simpl.
  - left. repeat split.
  - destruct (String.eqb key "Enter" && negb (loading s)).
    + apply askQuestion_quiet_or_raises.
    + left. exact I.
  - apply askQuestion_quiet_or_raises.
  - apply handleFileUpload_quiet_or_raises.
Qed.

Lemma disabled_while_loading (s : State) (a : action) :
  disabled s a = false -> loading s = false.
Proof.
  unfold disabled. destruct (renderError s); [discriminate|].
  destruct a; simpl; intros H; try exact H.
  apply orb_false_elim in H. apply H.
Qed.

(** Resuming the [i]-th suspended function with the continuation [k]. *)
Lemma resume_busy (c : Config) (i : nat) (t : task) (p : proc unit) :
  nth_error (waiting c) i = Some t ->
  (task_quiet t -> quiet p) ->
  (task_busy t -> lowers p) ->
  busy_invariant c ->
  busy_invariant (advance p (without i c)).
Proof.
  intros Hn Hquiet Hbusy [Halt Hpool].
  destruct (one_special_removed _ _ _ _ _ _ Hn Hpool)
    as [[Ht Hrest]|(Hb & Ht & Hrest)].
  - destruct (advance_quiet p (without i c) (Hquiet Ht)) as (ts & Hw & Hts & Hl & Hs).
    split; rewrite ?Hw, ?Hl, ?Hs; simpl; [exact Halt|].
    now apply one_special_app.
  - destruct (advance_lowers p (without i c) (Hbusy Ht))
      as [(ts & t' & Hw & Hts & Ht' & Hl & Hs)|(ts & Hw & Hts & Hl & Hs)].
    + split; rewrite ?Hw, ?Hl, ?Hs; simpl; [exact Halt|].
      rewrite Hb, List.app_assoc. apply one_special_last; [|exact Ht'].
      apply Forall_app. now split.
    + split; rewrite ?Hw, ?Hl, ?Hs; simpl.
      * rewrite Hb in Halt. rewrite <- List.app_assoc. simpl.
        now apply alternates_next in Halt.
      * apply one_special_false, Forall_app. now split.
Qed.

Lemma play_busy (m : move) (c : Config) :
  busy_invariant c -> busy_invariant (play m c).
Proof.
  intros Hc. destruct m as [a|i o|i]; simpl.
  - destruct (disabled (state c) a) eqn:Hd; [exact Hc|].
    apply disabled_while_loading in Hd. destruct Hc as [Halt Hpool].
    rewrite Hd in Halt, Hpool. apply one_special_false in Hpool.
    destruct (handler_quiet_or_raises (state c) a) as [Hq|Hr].
    + destruct (advance_quiet _ c Hq) as (ts & Hw & Hts & Hl & Hs).
      split; rewrite ?Hw, ?Hl, ?Hs, ?Hd; [exact Halt|].
      apply one_special_false, Forall_app. now split.
    + destruct (handler (state c) a) as [x|e|eff k|rq k|response k|callee k];
        try destruct Hr.
      destruct eff as [[v|q|u|[]|x]|text|label e]; try destruct Hr.
      destruct k as [x|e|eff k|rq k|response k|callee k]; try destruct Hr.
      split; simpl.
      * rewrite !loading_calls_app. simpl.
        rewrite List.app_nil_r, <- List.app_assoc. simpl.
        apply alternates_next in Halt. exact Halt.
      * apply one_special_last; [exact Hpool | exact Hr].
  - unfold deliver.
    destruct (nth_error (waiting c) i) as [[rq k|response k]|] eqn:Hn;
      try exact Hc.
    apply (resume_busy c i _ (k o) Hn); [| |exact Hc]; intros H; apply H.
  - unfold body_arrives.
    destruct (nth_error (waiting c) i) as [[rq k|response k]|] eqn:Hn;
      try exact Hc.
    apply (resume_busy c i _ (k (json response)) Hn); [| |exact Hc];
      intros H; apply H.
Qed.

Lemma session_busy (ms : list move) : busy_invariant (session ms).
Proof.
  unfold session.
  assert (H : busy_invariant (call mount initial)).
  { split; [reflexivity|]. simpl.
    left. split; [split; [reflexivity | intros o; apply checkApiStatus_quiet]|].
    left. split; [split; [reflexivity | intros o; apply fetchDocuments_quiet]|].
    reflexivity. }
  revert H. generalize (call mount initial).
  induction ms as [|m ms IH]; intros c Hc; simpl; [exact Hc|].
  apply IH, play_busy, Hc.
Qed.

Lemma busy_in_flight_bound (present : bool) (ts : list task) :
  one_special task_busy task_quiet present ts ->
  busy_in_flight ts <= (if present then 1 else 0).
Proof.
  assert (Hquiet : forall l, Forall task_quiet l -> busy_in_flight l = 0).
  { induction 1 as [|t l Ht _ IH]; [reflexivity|].
    unfold busy_in_flight in *. simpl.
    destruct t as [rq k|response k]; [|exact IH].
    destruct Ht as [Hrq _]. now rewrite Hrq. }
  induction ts as [|t ts IH]; simpl; intros H.
  - unfold busy_in_flight. simpl. destruct present; lia.
  - destruct H as [[Ht Hts]|(-> & Ht & Hts)].
    + replace (busy_in_flight (t :: ts)) with (busy_in_flight ts); [now apply IH|].
      unfold busy_in_flight. simpl.
      destruct t as [rq k|response k]; [|reflexivity].
      destruct Ht as [Hrq _]. now rewrite Hrq.
    + specialize (Hquiet ts Hts). unfold busy_in_flight in *. simpl.
      destruct t as [rq k|response k]; [|lia].
      destruct (is_busy_url (url rq)); simpl; lia.
Qed.

(** X5. In every session the calls of [setLoading] go up and down in turn,
    starting with up; the flag in the state is what the last call made it;
    and at most one upload or question waits for its answer, and none when
    the flag is down. *)
Theorem busy_flag_is_exclusive (ms : list move) :
  let c := session ms in
  alternates true (loading_calls (log c)) = true /\
  loading (state c) = last (loading_calls (log c)) false /\
  busy_in_flight (waiting c) <= (if loading (state c) then 1 else 0).
Proof.
  destruct (session_busy ms) as [Halt Hpool]. simpl.
  destruct (alternates_front _ _ _ Halt) as [Ha Hl]. simpl in Hl.
  split; [exact Ha|]. split.
  - rewrite Hl. now rewrite negb_involutive.
  - now apply busy_in_flight_bound.
Qed.

End BusyFlag.

(* ================================================================== *)
(** * The backend status in every session *)
(* ================================================================== *)

Section BackendStatus.

Lemma advance_keeps_status (p : proc unit) (c : Config) :
  keeps_status p ->
  exists ts,
    waiting (advance p c) = waiting c ++ ts /\
    Forall task_keeps_status ts /\
    apiStatus (state (advance p c)) = apiStatus (state c).
Proof.
  intros Hp.
  destruct (advance_appends _ _ p c Hp) as (ts & evs & Hw & Hts & _ & _).
  exists ts. repeat split; try assumption.
  apply (advance_related
           (fun eff => match eff with
                       | Update (setApiStatus _) => False
                       | _ => True
                       end)
           (fun _ => True)
           (fun s s' => apiStatus s' = apiStatus s)); try exact Hp.
  - reflexivity.
  - intros s1 s2 s3 H1 H2. now rewrite H2.
  - intros st s s' HP Happly.
    destruct st as [v|q|u|b|a]; simpl in *;
      try (injection Happly as <-; reflexivity); try destruct HP.
    destruct (u (chatHistory s)); [|discriminate Happly].
    injection Happly as <-. reflexivity.
  - reflexivity.
Qed.

Lemma fetchDocuments_keeps_status : keeps_status fetchDocuments.
Proof.
  cbn. split; [exact I|].
  intros [response|e]; cbn; [|auto].
  intros [data|e]; cbn; [|auto].
  destruct (get data "documents"); cbn; auto.
Qed.

Lemma askQuestion_keeps_status (s : State) : keeps_status (askQuestion s).
Proof.
  unfold askQuestion.
  destruct (nonempty (trim (question s))); cbn; [|exact I].
  repeat split.
  intros [response|e]; cbn; [|auto].
  destruct (ok response); cbn; [|auto].
  intros [data|e]; cbn; auto.
Qed.

Lemma handleFileUpload_keeps_status (event : ChangeEvent) :
  keeps_status (handleFileUpload event).
Proof.
  unfold handleFileUpload.
  destruct (first_file event) as [file|]; [|exact I].
  destruct (negb _); cbn; [auto|].
  repeat split.
  intros [response|e]; cbn; [|auto].
  destruct (ok response); cbn; [|auto].
  intros [result|e]; cbn; [|auto].
  destruct (get result "filename") as [filename|e]; cbn; [|auto].
  unfold ToString.
  destruct (convertible filename); cbn; [|auto].
  destruct (get result "file_type") as [file_type|e]; cbn; [|auto].
  destruct (convertible file_type); cbn; [|auto].
  split; [exact I|]. split; [apply fetchDocuments_keeps_status | auto].
Qed.

Lemma handler_keeps_status (s : State) (a : action) :
  keeps_status (handler s a).
Proof.
  destruct a as [value|key| |event]; simpl.
  - auto.
  - destruct (String.eqb key "Enter" && negb (loading s)); [|exact I].
    apply askQuestion_keeps_status.
  - apply askQuestion_keeps_status.
  - apply handleFileUpload_keeps_status.
Qed.

(** Once no suspended function touches the status, it stays what it is. *)
Lemma play_keeps_status (m : move) (c : Config) :
  Forall task_keeps_status (waiting c) ->
  Forall task_keeps_status (waiting (play m c)) /\
  apiStatus (state (play m c)) = apiStatus (state c).
Proof.
  intros Hc.
  assert (Hresume : forall i t p,
            nth_error (waiting c) i = Some t ->
            (task_keeps_status t -> keeps_status p) ->
            Forall task_keeps_status (waiting (advance p (without i c))) /\
            apiStatus (state (advance p (without i c))) = apiStatus (state c)).
  { intros i t p Hn Hp.
    destruct (Forall_removed _ _ _ _ _ Hn Hc) as [Ht Hrest].
    destruct (advance_keeps_status p (without i c) (Hp Ht)) as (ts & Hw & Hts & Hs).
    rewrite Hw, Hs. split; [|reflexivity].
    apply Forall_app. now split. }
  destruct m as [a|i o|i]; simpl.
  - destruct (disabled (state c) a); [now split|].
    destruct (advance_keeps_status _ c (handler_keeps_status (state c) a))
      as (ts & Hw & Hts & Hs).
    rewrite Hw, Hs. split; [|reflexivity]. apply Forall_app. now split.
  - unfold deliver.
    destruct (nth_error (waiting c) i) as [[rq k|response k]|] eqn:Hn;
      try now split.
    apply (Hresume i _ (k o) Hn). intros H. apply H.
  - unfold body_arrives.
    destruct (nth_error (waiting c) i) as [[rq k|response k]|] eqn:Hn;
      try now split.
    apply (Hresume i _ (k (json response)) Hn). intros H. apply H.
Qed.

Lemma run_keeps_status (ms : list move) :
  forall c, Forall task_keeps_status (waiting c) ->
            apiStatus (state (run ms c)) = apiStatus (state c).
Proof.
  induction ms as [|m ms IH]; intros c Hc; simpl; [reflexivity|].
  destruct (play_keeps_status m c Hc) as [Hw Hs].
  now rewrite (IH _ Hw).
Qed.

Lemma play_status (m : move) (c : Config) :
  status_invariant c -> status_invariant (play m c).
Proof.
  intros (probing & Hpool & Hiff).
  assert (Hresume : forall i t p,
            nth_error (waiting c) i = Some t ->
            (task_keeps_status t -> keeps_status p) ->
            (task_probe t ->
             forall c', waiting (advance p c') = waiting c' /\
                        apiStatus (state (advance p c')) <> checking) ->
            status_invariant (advance p (without i c))).
  { intros i t p Hn Hkeep Hprobe.
    destruct (one_special_removed _ _ _ _ _ _ Hn Hpool)
      as [[Ht Hrest]|(Hb & Ht & Hrest)].
    - destruct (advance_keeps_status p (without i c) (Hkeep Ht))
        as (ts & Hw & Hts & Hs).
      exists probing. rewrite Hw, Hs. split; [|exact Hiff].
      now apply one_special_app.
    - destruct (Hprobe Ht (without i c)) as [Hw Hs].
      exists false. rewrite Hw. split; [now apply one_special_false|].
      split; [discriminate | intros H; now destruct Hs]. }
  destruct m as [a|i o|i]; simpl.
  - destruct (disabled (state c) a); [now exists probing|].
    destruct (advance_keeps_status _ c (handler_keeps_status (state c) a))
      as (ts & Hw & Hts & Hs).
    exists probing. rewrite Hw, Hs. split; [|exact Hiff].
    now apply one_special_app.
  - unfold deliver.
    destruct (nth_error (waiting c) i) as [[rq k|response k]|] eqn:Hn;
      try now exists probing.
    apply (Hresume i _ (k o) Hn); intros H; [apply H | intros c'; apply H].
  - unfold body_arrives.
    destruct (nth_error (waiting c) i) as [[rq k|response k]|] eqn:Hn;
      try now exists probing.
    apply (Hresume i _ (k (json response)) Hn); intros H; [apply H | destruct H].
Qed.

Lemma session_status (ms : list move) : status_invariant (session ms).
Proof.
  unfold session.
  assert (H : status_invariant (call mount initial)).
  { exists true. split; [|now split]. simpl.
    right. split; [reflexivity|]. split.
    - intros [response|e] c; cbn; [destruct (ok response); cbn|];
        split; try reflexivity; discriminate.
    - constructor; [|constructor]. split; [exact I|].
      intros [response|e]; cbn; [|auto].
      intros [data|e]; cbn; [|auto].
      destruct (get data "documents"); cbn; auto. }
  revert H. generalize (call mount initial).
  induction ms as [|m ms IH]; intros c Hc; simpl; [exact Hc|].
  apply IH, play_status, Hc.
Qed.

(** X6. Once the probe has set the backend status, the status stays what it
    is for the rest of the session, whatever the user does and whatever the
    backend answers. *)
Theorem backend_status_is_final (ms ms' : list move) :
  apiStatus (state (session ms)) <> checking ->
  apiStatus (state (session (ms ++ ms'))) = apiStatus (state (session ms)).
Proof.
  intros Hset. rewrite session_app. apply run_keeps_status.
  destruct (session_status ms) as (probing & Hpool & Hiff).
  destruct probing.
  - destruct Hset. now apply Hiff.
  - now apply one_special_false in Hpool.
Qed.

(** The probe finds the backend down; later an upload and the refresh
    after it succeed, and the status is still [offline]. *)
Lemma backend_status_is_final_witness :
  apiStatus
    (state (session ([Network 0 (Fulfilled server_error)] ++
                     [User (PickFile (picked notes_txt));
                      Network 1 (Fulfilled upload_created);
                      BodyRead 1]))) = offline.
Proof.
  rewrite (backend_status_is_final [Network 0 (Fulfilled server_error)]).
  - reflexivity.
  - simpl. discriminate.
Defined.

End BackendStatus.

(* ================================================================== *)
(** * Start-up, refreshes and answers *)
(* ================================================================== *)

Section StartUp.

(** X7. The two requests made when the page is mounted can be answered in
    any order: the state that results is the same. Nothing is shown to the
    user, the busy flag, the question and the chat are left alone, and
    nothing stays in flight. *)
Theorem mount_answers_commute (s : State) (o1 o2 : settled Response) :
  let c := call mount s in
  let probe_first := body_arrives 0 (deliver 0 o2 (deliver 0 o1 c)) in
  let list_first := deliver 0 o1 (body_arrives 1 (deliver 1 o2 c)) in
  let body_last := body_arrives 0 (deliver 0 o1 (deliver 1 o2 c)) in
  state c = s /\
  map requested_url (log c) = [Some root_url; Some documents_url] /\
  state list_first = state probe_first /\
  state body_last = state probe_first /\
  waiting probe_first = [] /\ waiting list_first = [] /\ waiting body_last = [] /\
  filter is_alert (log probe_first) = [] /\
  loading (state probe_first) = loading s /\
  question (state probe_first) = question s /\
  chatHistory (state probe_first) = chatHistory s.
Proof.
  unfold call, deliver, body_arrives. cbn.
  destruct o1 as [r1|e1]; cbn; [destruct (ok r1) eqn:Hok; cbn|];
    (destruct o2 as [r2|e2]; cbn;
     [destruct (json r2) as [data|e] eqn:Hjson; cbn;
      [destruct (get data "documents") eqn:Hget; cbn|]|]);
    rewrite ?Hok; cbn; rewrite ?Hjson; cbn; rewrite ?Hget; cbn;
    repeat split.
Qed.

End StartUp.

Section Refresh.

(** X8. A refresh answered by a 2xx response whose body is an object
    replaces the list as a whole, whatever it was, by the documents of the
    response, or by the empty list when the response has none; it changes
    nothing else and shows nothing. *)
Theorem fetchDocuments_replaces_the_list
  (s : State) (response : Response) (fields : list (string * jsval)) :
  ok response = true ->
  json response = Fulfilled (JObj fields) ->
  let c1 := answered (Fulfilled response) (call fetchDocuments s) in
  (forall l, lookup "documents" fields = Some (JArr l) ->
             documents (state c1) = JArr l) /\
  (lookup "documents" fields = None -> documents (state c1) = JArr []) /\
  question (state c1) = question s /\
  chatHistory (state c1) = chatHistory s /\
  loading (state c1) = loading s /\
  apiStatus (state c1) = apiStatus s /\
  filter is_alert (log c1) = [] /\
  filter is_console_error (log c1) = [] /\
  waiting c1 = [].
Proof.
  intros _ Hjson. unfold call, answered, deliver, body_arrives. cbn.
  rewrite Hjson. cbn.
  destruct (lookup "documents" fields) as [d|]; cbn; repeat split;
    try discriminate.
  intros l [= ->]. reflexivity.
Qed.

Lemma fetchDocuments_replaces_the_list_witness :
  documents (state (answered (Fulfilled listing) (call fetchDocuments initial)))
  = one_document.
Proof.
  destruct (fetchDocuments_replaces_the_list initial listing
              [("documents", one_document)] eq_refl eq_refl) as [H _].
  exact (H _ eq_refl).
Defined.

(** X9. Whatever the answer, a refresh changes nothing but the list of
    documents, shows no alert and leaves nothing in flight. *)
Theorem fetchDocuments_touches_only_documents (s : State) (o : settled Response) :
  let c1 := answered o (call fetchDocuments s) in
  question (state c1) = question s /\
  chatHistory (state c1) = chatHistory s /\
  loading (state c1) = loading s /\
  apiStatus (state c1) = apiStatus s /\
  filter is_alert (log c1) = [] /\
  waiting c1 = [].
Proof.
  unfold call, answered, deliver, body_arrives. cbn.
  destruct o as [response|e]; cbn; [|repeat split].
  destruct (json response) as [data|e]; cbn; [|repeat split].
  destruct (get data "documents"); cbn; repeat split.
Qed.

(** X10. With two refreshes in flight, both answered by 2xx responses that
    carry a list, the list of the page is that of the answer that comes
    last, also when that answer belongs to the request made first. *)
Theorem refresh_last_answer_wins
  (s : State) (r1 r2 : Response) (f1 f2 : list (string * jsval))
  (l1 l2 : list jsval) :
  ok r1 = true ->
  json r1 = Fulfilled (JObj f1) -> lookup "documents" f1 = Some (JArr l1) ->
  ok r2 = true ->
  json r2 = Fulfilled (JObj f2) -> lookup "documents" f2 = Some (JArr l2) ->
  let c := advance fetchDocuments (call fetchDocuments s) in
  let in_order :=
    body_arrives 0 (deliver 0 (Fulfilled r2)
      (body_arrives 1 (deliver 0 (Fulfilled r1) c))) in
  let out_of_order :=
    body_arrives 0 (deliver 0 (Fulfilled r1)
      (body_arrives 1 (deliver 1 (Fulfilled r2) c))) in
  List.length (waiting c) = 2 /\
  documents (state in_order) = JArr l2 /\
  documents (state out_of_order) = JArr l1 /\
  waiting in_order = [] /\ waiting out_of_order = [].
Proof.
  intros _ H1 Hl1 _ H2 Hl2. unfold call, deliver, body_arrives. cbn.
  repeat (progress (rewrite ?H1, ?H2, ?Hl1, ?Hl2; cbn)). repeat split.
Qed.

(** The list is empty by the answer to the second request, then one
    document long by the older answer to the first. *)
Lemma refresh_last_answer_wins_witness :
  let c := advance fetchDocuments (call fetchDocuments initial) in
  documents
    (state (body_arrives 0 (deliver 0 (Fulfilled listing)
              (body_arrives 1
                 (deliver 1 (Fulfilled {| status := 200;
                                          json := Fulfilled (JObj [("documents", JArr [])]) |})
                    c))))) = one_document.
Proof.
  destruct (refresh_last_answer_wins initial listing
              {| status := 200; json := Fulfilled (JObj [("documents", JArr [])]) |}
              [("documents", one_document)] [("documents", JArr [])]
              [JObj [("id", JStr "1"); ("filename", JStr "a.txt");
                     ("content", JStr "hello")]] []
              eq_refl eq_refl eq_refl eq_refl eq_refl eq_refl)
    as (_ & _ & Hstale & _).
  exact Hstale.
Defined.


End Refresh.

Section UploadOutcome.

(** X12. An accepted file is sent as it was picked, alone, under the field
    [file]; and whatever the outcome, the user sees exactly one alert and
    the upload itself leaves the documents, the question, the chat and the
    backend status as they were, with the busy flag down. *)
Theorem upload_always_alerts_once
  (s : State) (event : ChangeEvent) (file : File) (o : settled Response) :
  first_file event = Some file ->
  existsb (endsWith (toLowerCase (file_name file))) allowedTypes = true ->
  let c0 := call (handleFileUpload event) s in
  let c1 := answered o c0 in
  filter is_request (log c0) =
    [Requested {| url := upload_url; method := "POST"; headers := [];
                  body := FormData [("file"%string, file)] |}] /\
  List.length (filter is_alert (log c1)) = 1 /\
  documents (state c1) = documents s /\
  question (state c1) = question s /\
  chatHistory (state c1) = chatHistory s /\
  apiStatus (state c1) = apiStatus s /\
  loading (state c1) = false.
Proof.
  intros Hfile Hvalid. unfold call, handleFileUpload. rewrite Hfile.
  cbn -[existsb allowedTypes toLowerCase].
  change (existsb _ allowedTypes)
    with (existsb (endsWith (toLowerCase (file_name file))) allowedTypes).
  rewrite Hvalid. cbn. unfold answered, deliver, body_arrives. cbn.
  split; [reflexivity|].
  destruct o as [response|e]; cbn; [|repeat split].
  destruct (ok response); cbn; [|repeat split].
  destruct (json response) as [result|e]; cbn; [|repeat split].
  destruct (get result "filename") as [filename|e]; cbn; [|repeat split].
  unfold ToString.
  destruct (convertible filename); cbn; [|repeat split].
  destruct (get result "file_type") as [file_type|e]; cbn; [|repeat split].
  destruct (convertible file_type); cbn; repeat split.
Qed.

(** The upload is answered by 200 with a body that is not JSON. *)
Lemma upload_always_alerts_once_witness :
  List.length
    (filter is_alert
       (log (answered (Fulfilled empty_200)
               (call (handleFileUpload (picked notes_txt)) initial)))) = 1.
Proof.
  destruct (upload_always_alerts_once initial (picked notes_txt) notes_txt
              (Fulfilled empty_200) eq_refl eq_refl) as (_ & Honce & _).
  exact Honce.
Defined.

End UploadOutcome.

Section AskOutcome.

(** X13. When the 2xx answer to a question has the body [null], the updater
    that [askQuestion] gives to [setChatHistory] throws whatever the
    history is, and it does so when React renders, outside the [try]:
    [askQuestion] goes on to clear the question and to lower the flag and
    shows no alert, no turn is added, the render fails with the
    [TypeError] of the updater, and from then on no control reacts. *)
Theorem askQuestion_null_body_fails_render (s : State) (response : Response) :
  trim (question s) <> "" ->
  renderError s = None ->
  ok response = true ->
  json response = Fulfilled JNull ->
  let c0 := call (askQuestion s) s in
  let c1 := answered (Fulfilled response) c0 in
  let thrown :=
    Error "TypeError" "Cannot read properties of null (reading 'answer')" in
  (exists updater,
     log c1 = log c0 ++
       [Performed (Update (setChatHistory updater));
        Performed (Update (setQuestion ""));
        Performed (Update (setLoading false))] /\
     forall prev, updater prev = Rejected thrown) /\
  renderError (state c1) = Some thrown /\
  chatHistory (state c1) = chatHistory s /\
  waiting c1 = [] /\
  forall ms, run (map User ms) c1 = c1.
Proof.
  intros Hq Hlive Hok Hjson. unfold call, askQuestion.
  apply nonempty_true_iff in Hq. rewrite Hq. cbn.
  unfold answered, deliver, body_arrives. cbn.
  rewrite Hok. cbn. rewrite Hjson. cbn. rewrite Hlive.
  split; [eexists; split; [reflexivity | intros prev; reflexivity]|].
  repeat split.
  induction ms as [|a ms IH]; [reflexivity | exact IH].
Qed.

(** The question typed on [asking_page], answered by 200 with the body
    [null]: the render fails, and typing and clicking do nothing. *)
Lemma askQuestion_null_body_fails_render_witness :
  let c1 := answered (Fulfilled {| status := 200; json := Fulfilled JNull |})
              (call (askQuestion asking_page) asking_page) in
  renderError (state c1) =
    Some (Error "TypeError" "Cannot read properties of null (reading 'answer')") /\
  run [User (TypeQuestion "What is X?"); User ClickAsk] c1 = c1.
Proof.
  destruct (askQuestion_null_body_fails_render asking_page
              {| status := 200; json := Fulfilled JNull |})
    as (_ & Herror & _ & _ & Hdead); try reflexivity; try discriminate.
  split; [exact Herror|].
  exact (Hdead [TypeQuestion "What is X?"; ClickAsk]).
Defined.

End AskOutcome.

(* ================================================================== *)
(** * The controls and the list of documents *)
(* ================================================================== *)

Section ControlsFacts.

(** X15. Pressing Enter in the question input does to every page what
    clicking the Ask button does, and any other key does nothing. *)
Theorem enter_key_is_ask_button (c : Config) :
  play (User (KeyPress "Enter")) c = play (User ClickAsk) c /\
  forall key, key <> "Enter"%string -> play (User (KeyPress key)) c = c.
Proof.
  unfold play, disabled.
  destruct (renderError (state c)); [split; reflexivity|].
  split.
  - simpl. destruct (loading (state c)) eqn:Hloading; simpl; [reflexivity|].
    destruct (nonempty (trim (question (state c)))) eqn:Hq; simpl; [reflexivity|].
    unfold askQuestion. rewrite Hq. reflexivity.
  - intros key Hkey. simpl.
    destruct (loading (state c)); [reflexivity|].
    apply String.eqb_neq in Hkey. rewrite Hkey. reflexivity.
Qed.

Lemma enter_key_is_ask_button_witness :
  play (User (KeyPress "a")) (at_rest asking_page) = at_rest asking_page.
Proof.
  destruct (enter_key_is_ask_button (at_rest asking_page)) as [_ Hother].
  apply Hother. discriminate.
Defined.

(** X16. On an enabled Ask button a click raises the busy flag and sends the
    question as it was typed, and only that. *)
Theorem ask_button_sends_the_question (c : Config) :
  disabled (state c) ClickAsk = false ->
  let c' := play (User ClickAsk) c in
  log c' = log c ++
    [Performed (Update (setLoading true));
     Requested {| url := ask_url; method := "POST";
                  headers := [("Content-Type", "application/json")%string];
                  body := JsonText (JObj [("question"%string,
                                           JStr (question (state c)))]) |}] /\
  loading (state c') = true /\
  question (state c') = question (state c) /\
  chatHistory (state c') = chatHistory (state c) /\
  List.length (waiting c') = S (List.length (waiting c)).
Proof.
  intros Hd. unfold play. rewrite Hd. unfold disabled in Hd.
  destruct (renderError (state c)); [discriminate Hd|].
  apply orb_false_elim in Hd. destruct Hd as [_ Hq].
  apply negb_false_iff in Hq.
  cbn [handler]. unfold askQuestion. rewrite Hq. cbn.
  rewrite <- List.app_assoc, List.length_app. cbn.
  repeat split. lia.
Qed.

Lemma ask_button_sends_the_question_witness :
  loading (state (play (User ClickAsk) (at_rest asking_page))) = true.
Proof.
  destruct (ask_button_sends_the_question (at_rest asking_page) eq_refl)
    as (_ & Hloading & _).
  exact Hloading.
Defined.

End ControlsFacts.

Section Labels.

Lemma txt_excludes_the_others (s : string) :
  endsWith s ".txt" = true ->
  endsWith s ".pdf" = false /\ endsWith s ".doc" = false /\
  endsWith s ".docx" = false.
Proof.
  intros H. apply endsWith_iff in H. destruct H as [p ->].
  repeat split.
  - destruct (endsWith _ ".pdf") eqn:E; [|reflexivity].
    apply endsWith_iff in E. destruct E as [q E].
    apply app_tail_inj in E; [|reflexivity]. destruct E as [_ E]. discriminate E.
  - destruct (endsWith _ ".doc") eqn:E; [|reflexivity].
    apply endsWith_iff in E. destruct E as [q E].
    apply app_tail_inj in E; [|reflexivity]. destruct E as [_ E]. discriminate E.
  - destruct (endsWith _ ".docx") eqn:E; [|reflexivity].
    apply endsWith_iff in E. destruct E as [q E].
    change ".docx"%string with ("." ++ "docx")%string in E.
    rewrite <- JsStringFacts.app_assoc in E.
    apply app_tail_inj in E; [|reflexivity]. destruct E as [_ E]. discriminate E.
Qed.

(** X17. The label of a file agrees with the test of the upload: a name that
    the upload accepts is labelled [TXT] exactly when it ends in [.txt], and
    a name that the upload refuses is labelled [TXT] and gets the memo icon. *)
Theorem label_agrees_with_upload_test (filename : string) :
  (existsb (endsWith (toLowerCase filename)) allowedTypes = true ->
   (getFileType filename = "TXT"%string <->
    endsWith (toLowerCase filename) ".txt" = true)) /\
  (existsb (endsWith (toLowerCase filename)) allowedTypes = false ->
   getFileType filename = "TXT"%string /\ getFileIcon filename = "📝"%string).
Proof.
  unfold getFileType, getFileIcon, allowedTypes. simpl.
  destruct (endsWith (toLowerCase filename) ".txt") eqn:Etxt.
  - destruct (txt_excludes_the_others _ Etxt) as (-> & -> & ->).
    simpl. split; [intros _; split; reflexivity | discriminate].
  - destruct (endsWith (toLowerCase filename) ".pdf") eqn:Epdf; simpl.
    { split; [intros _; split; discriminate | discriminate]. }
    destruct (endsWith (toLowerCase filename) ".doc") eqn:Edoc; simpl.
    { split; [intros _; split; discriminate | discriminate]. }
    destruct (endsWith (toLowerCase filename) ".docx") eqn:Edocx; simpl.
    { split; [intros _; split; discriminate | discriminate]. }
    split; [discriminate | intros _; split; reflexivity].
Qed.

Lemma label_agrees_with_upload_test_witness :
  getFileType "photo.PNG" = "TXT"%string /\
  (getFileType "Notes.TXT" = "TXT"%string <->
   endsWith (toLowerCase "Notes.TXT") ".txt" = true).
Proof.
  destruct (label_agrees_with_upload_test "photo.PNG") as [_ Hrefused].
  destruct (label_agrees_with_upload_test "Notes.TXT") as [Haccepted _].
  split; [apply (Hrefused eq_refl) | apply (Haccepted eq_refl)].
Defined.

End Labels.

Section PreviewFacts.

Variable code_unit : Type.
Variable dot : code_unit.

(** X18. The preview of a content has 53 code units at most; it begins as
    the content does; a content of 50 code units or less is its own preview
    and a longer one gets a preview of 53; and the preview of a preview is
    the preview. *)
Theorem content_preview_is_bounded (content : list code_unit) :
  List.length (content_preview code_unit dot content) <= 53 /\
  firstn 50 (content_preview code_unit dot content) = firstn 50 content /\
  (List.length content <= 50 -> content_preview code_unit dot content = content) /\
  (50 < List.length content ->
   List.length (content_preview code_unit dot content) = 53) /\
  content_preview code_unit dot (content_preview code_unit dot content)
  = content_preview code_unit dot content.
Proof.
  unfold content_preview.
  destruct (50 <? List.length content)%nat eqn:Hlong.
  - apply Nat.ltb_lt in Hlong.
    assert (Hfirst : List.length (firstn 50 content) = 50).
    { rewrite length_firstn. lia. }
    assert (Hlen : List.length (firstn 50 content ++ [dot; dot; dot]) = 53).
    { rewrite List.length_app, Hfirst. reflexivity. }
    assert (Hkeep : firstn 50 (firstn 50 content ++ [dot; dot; dot])
                    = firstn 50 content).
    { rewrite firstn_app, Hfirst, firstn_firstn. simpl.
      apply List.app_nil_r. }
    repeat split.
    + lia.
    + exact Hkeep.
    + lia.
    + intros _. exact Hlen.
    + rewrite Hlen. change (50 <? 53)%nat with true. cbv iota.
      now rewrite Hkeep.
  - apply Nat.ltb_ge in Hlong.
    repeat split; try lia.
    rewrite (proj2 (Nat.ltb_ge _ _) Hlong). reflexivity.
Qed.

End PreviewFacts.

(** A content of 51 characters has a preview of 53. *)
Lemma content_preview_is_bounded_witness :
  List.length
    (content_preview ascii "."%char
       (repeat "a"%char 51)) = 53.
Proof.
  destruct (content_preview_is_bounded ascii "."%char (repeat "a"%char 51))
    as (_ & _ & _ & Hlong & _).
  apply Hlong. vm_compute. lia.
Defined.
